(** * surf: a stateful browsing session

    A shallow embedding of the session engine of [dataxpe/surf]
    (packages [jar] and [browser]) and the properties of its history
    stack, async store, request pipeline and challenge solver.

    Go values are modelled as follows.
    - [int] is [Z] (the counters and lengths involved stay far from the
      bounds of a machine word); slices are lists; [[]byte] is
      [list byte].
    - Go maps ([http.Header], [url.Values], the attribute map, the async
      store) are [gmap]s; a missing key reads as the zero value.
    - A pointer that may be [nil] is an [option].
    - Methods that mutate the receiver return the new receiver. *)

From stdpp Require Import gmap strings list fin_maps.
From Stdlib Require Import ZArith Lia Strings.Byte.

Open Scope string_scope.
Open Scope list_scope.
Open Scope Z_scope.

Abbreviation bytes := (list byte).

#[global] Instance byte_eq_decision : EqDecision byte := Byte.byte_eq_dec.

(** Go's [len] on a slice. *)
Definition len {A} (l : list A) : Z := Z.of_nat (length l).

(** [[]byte(s)] for a string literal [s]. *)
Definition bytes_of (s : string) : bytes := String.list_byte_of_string s.

(** ** goquery documents

    [goquery.NewDocumentFromReader] runs the HTML5 parser over an
    in-memory buffer.  The tree it builds is a function of the bytes it
    is given, so a document is represented by those bytes; the queries
    made on it ([Find], [Attr], [Text], [Html]) belong to the library
    interface further down. *)
Record Document := mkDocument { doc_source : bytes }.

(** ** net/http data *)

(** [http.Header] and [url.Values]: [map[string][]string]. *)
Abbreviation Header := (gmap string (list string)).
Abbreviation Values := (gmap string (list string)).

(** [url.URL], the components the engine reads and writes. *)
Record URL := mkURL {
  Scheme : string;
  Host : string;
  Path : string;
  RawQuery : string
}.

Record Request := mkRequest {
  req_Method : string;
  req_URL : URL;
  req_Header : Header;
  req_Body : option bytes
}.

Record Response := mkResponse {
  resp_StatusCode : Z;
  resp_Header : Header;
  resp_Body : option bytes;
  resp_Request : option Request
}.

(** ** Package jar *)
Module jar.

(** [time.Time], as ticks of the wall clock; the zero [Time] is [0]. *)
Definition Time := Z.

(** *** asynccall.go: the async store *)

Record AsyncDom := mkAsyncDom {
  T : Time;
  D : option Document
}.

Record AsyncStore := mkAsyncStore {
  doms : gmap string AsyncDom
}.

Definition NewAsyncStore : AsyncStore := {| doms := ∅ |}.

(** [a.doms[name] = &AsyncDom{T: time.Now(), D: val}]; [now] is the
    reading of the clock at the call. *)
Definition AsyncStore_Set (now : Time) (name : string) (val : option Document)
    (a : AsyncStore) : AsyncStore :=
  {| doms := <[name := {| T := now; D := val |}]> (doms a) |}.

(** [&AsyncDom{}]: the zero value. *)
Definition emptyAsyncDom : AsyncDom := {| T := 0; D := None |}.

Definition AsyncStore_Get (name : string) (a : AsyncStore) : AsyncDom :=
  match doms a !! name with
  | Some v => v
  | None => emptyAsyncDom
  end.

(** *** State and history *)

Record State := mkState {
  st_Request : option Request;
  st_Response : option Response;
  st_Dom : option Document
}.

Definition NewHistoryState (req : option Request) (resp : option Response)
    (dom : option Document) : State :=
  {| st_Request := req; st_Response := resp; st_Dom := dom |}.

Record MemoryHistory := mkMemoryHistory {
  states : list State;
  Capacity : Z
}.

Definition NewMemoryHistory : MemoryHistory :=
  {| states := []; Capacity := 0 |}.

Definition Len (his : MemoryHistory) : Z := len (states his).

Definition SetCapacity (capacity : Z) (his : MemoryHistory) : MemoryHistory :=
  {| states := states his; Capacity := capacity |}.

(** [Push] returns the new length along with the updated history. *)
Definition Push (p : State) (his : MemoryHistory) : MemoryHistory * Z :=
  let his' :=
    if decide (Capacity his > 0) then
      let appended := states his ++ [p] in
      if decide (len appended > Capacity his)
      then {| states := drop 1 appended; Capacity := Capacity his |}
      else {| states := appended; Capacity := Capacity his |}
    else his in
  (his', Len his').

(** [Pop] returns the entry (or [nil]) and the updated history. *)
Definition Pop (his : MemoryHistory) : option State * MemoryHistory :=
  if decide (len (states his) > 0) then
    let value := last (states his) in
    if decide (len (states his) > 1) then
      (value, {| states := take (length (states his) - 1)%nat (states his);
                 Capacity := Capacity his |})
    else (value, his)
  else (None, his).

Definition Top (his : MemoryHistory) : option State :=
  if decide (len (states his) = 0) then None
  else last (states his).

End jar.

(** ** Package strings *)
Module strings.

Fixpoint Contains (s substr : string) : bool :=
  if String.prefix substr s then true
  else match s with
       | EmptyString => false
       | String _ s' => Contains s' substr
       end.

Definition HasSuffix (s suffix : string) : bool :=
  (String.length suffix <=? String.length s)%nat &&
  String.eqb
    (String.substring (String.length s - String.length suffix)
       (String.length suffix) s)
    suffix.

(** [strings.Replace(s, old, new, n)] for a non-empty [old] (every call
    in the engine passes a literal): the first [n] non-overlapping
    occurrences are replaced, all of them when [n < 0].  [fuel] bounds
    the scan by the length of [s]. *)
Fixpoint Replace_from (fuel : nat) (s old new : string) (n : Z) : string :=
  match fuel with
  | O => s
  | S fuel' =>
      if n =? 0 then s
      else if String.prefix old s then
        new +:+ Replace_from fuel'
                  (String.substring (String.length old)
                     (String.length s - String.length old) s)
                  old new (n - 1)
      else match s with
           | EmptyString => EmptyString
           | String c s' => String c (Replace_from fuel' s' old new n)
           end
  end.

Definition Replace (s old new : string) (n : Z) : string :=
  match old with
  | EmptyString => s
  | _ => Replace_from (S (String.length s)) s old new n
  end.

End strings.

(** ** net/textproto, net/http, net/url helpers *)

Definition is_lower (c : Ascii.ascii) : bool :=
  (97 <=? Ascii.N_of_ascii c)%N && (Ascii.N_of_ascii c <=? 122)%N.
Definition is_upper (c : Ascii.ascii) : bool :=
  (65 <=? Ascii.N_of_ascii c)%N && (Ascii.N_of_ascii c <=? 90)%N.
Definition is_digit (c : Ascii.ascii) : bool :=
  (48 <=? Ascii.N_of_ascii c)%N && (Ascii.N_of_ascii c <=? 57)%N.

(** The token characters of RFC 7230. *)
Definition validHeaderFieldByte (c : Ascii.ascii) : bool :=
  is_lower c || is_upper c || is_digit c ||
  bool_decide (c ∈ String.list_ascii_of_string "!#$%&'*+-.^_`|~").

Fixpoint all_chars (p : Ascii.ascii -> bool) (s : string) : bool :=
  match s with
  | EmptyString => true
  | String c s' => p c && all_chars p s'
  end.

Fixpoint canonicalize (upper : bool) (s : string) : string :=
  match s with
  | EmptyString => EmptyString
  | String c s' =>
      let c' :=
        if upper && is_lower c
        then Ascii.ascii_of_N (Ascii.N_of_ascii c - 32)
        else if negb upper && is_upper c
        then Ascii.ascii_of_N (Ascii.N_of_ascii c + 32)
        else c in
      String c' (canonicalize (Ascii.N_of_ascii c' =? 45)%N s')
  end.

(** [textproto.CanonicalMIMEHeaderKey]: a key with a byte outside the
    token set is left alone. *)
Definition CanonicalMIMEHeaderKey (s : string) : string :=
  if all_chars validHeaderFieldByte s then canonicalize true s else s.

Definition Header_Get (h : Header) (key : string) : string :=
  match h !! CanonicalMIMEHeaderKey key with
  | Some (v :: _) => v
  | _ => EmptyString
  end.

Definition Header_Set (key value : string) (h : Header) : Header :=
  <[CanonicalMIMEHeaderKey key := [value]]> h.

Definition Header_Del (key : string) (h : Header) : Header :=
  delete (CanonicalMIMEHeaderKey key) h.

(** [url.Values.Set] and [url.Values.Add] (keys are used as given). *)
Definition Values_Set (key value : string) (v : Values) : Values :=
  <[key := [value]]> v.

Definition Values_Add (key value : string) (v : Values) : Values :=
  <[key := default [] (v !! key) ++ [value]]> v.

(** [url.URL.String] for a URL with a host. *)
Definition URL_String (u : URL) : string :=
  Scheme u +:+ "://" +:+ Host u +:+ Path u +:+
  match RawQuery u with
  | EmptyString => EmptyString
  | q => "?" +:+ q
  end.

Definition URL_with_RawQuery (u : URL) (q : string) : URL :=
  {| Scheme := Scheme u; Host := Host u; Path := Path u; RawQuery := q |}.

(** ** Errors *)

(** The error [http.Client.Do] returns: a [*url.Error], with its text
    and its [Timeout()] flag. *)
Record UrlError := mkUrlError {
  ue_Error : string;
  ue_Timeout : bool
}.

Inductive Error :=
| ErrClient (e : UrlError)
    (* returned by the round trip *)
| ErrMaxRetries (counter : Z)
    (* "maximum retries (%d) for cloudflare reached" *)
| ErrUnknownAlgorithm
    (* "Page protected with cloudflare with unknown algorythm" *)
| ErrTooManyRedirects
    (* "too many redirects" *)
| ErrLocation (url : string)
    (* errors.NewLocation("Redirects are disabled. Cannot follow '%s'.") *)
| ErrPageNotLoaded
    (* errors.NewPageNotLoaded("Cannot reload, the previous request failed.") *)
| ErrEOF
    (* io.EOF *)
| ErrUnexpectedEOF
    (* io.ErrUnexpectedEOF *)
| ErrLibrary (msg : string).
    (* an error reported by one of the libraries below *)

(** ** Streams *)

(** What [ioutil.ReadAll] yields on a reader: the bytes delivered, and
    the error that stopped the stream if it did not end normally. *)
Record Decoded := mkDecoded {
  dec_out : bytes;
  dec_err : option Error
}.

(** The readers [httpRequest] and [solveCF] put over [resp.Body]. *)
Inductive Reader := BodyReader | GzipReader | FlateReader | BrotliReader.

(** [otto.Value], through the two methods the solver calls. *)
Record Value := mkValue {
  Value_ToInteger : Z + Error;
  Value_String : string
}.

(** ** The libraries the engine calls

    Each field stands for a function of an imported package; the engine
    is written once over the interface. *)
Class Lib := {
  (* net/url *)
  url_Parse : string -> URL + Error;
  url_ParseQuery : string -> Values;
  url_QueryEscape : string -> string;
  (* html *)
  html_UnescapeString : string -> string;
  (* compress/gzip: NewReader reads the header off the body; on success
     [gzip_buffered] raw bytes have left the body for its buffer *)
  gzip_NewReader : bytes -> option Error;
  gzip_buffered : bytes -> nat;
  gzip_ReadAll : bytes -> Decoded;
  (* compress/flate and brotli: NewReader reads nothing *)
  flate_ReadAll : bytes -> Decoded;
  brotli_ReadAll : bytes -> Decoded;
  (* raw bytes a decompressing reader has taken off the body when a
     1024-byte read through it fails *)
  preview_pulled : Reader -> bytes -> nat;
  (* mahonia and x/net/html/charset *)
  gbk_decode : bytes -> bytes;
  charset_transcode : string -> bytes -> bytes;
  (* goquery: Find(sel).Text(), Find(sel).Attr(name), Find(sel).Length(),
     Html() *)
  Find_Text : Document -> string -> string;
  Find_Attr : Document -> string -> string -> option string;
  Find_Length : Document -> string -> Z;
  Document_Html : Document -> string;
  (* regexp, by pattern *)
  FindStringSubmatch : string -> string -> list string;
  FindAllStringSubmatch : string -> string -> list (list string);
  ReplaceAllString : string -> string -> string -> string;
  (* otto *)
  otto_Eval : string -> Value + Error;
  (* time: a Duration in nanoseconds *)
  time_ParseDuration : string -> Z + Error
}.

(** [goquery.NewDocumentFromReader] over a [bytes.Buffer]: the parser
    accepts every input and the buffer never fails to read. *)
Definition NewDocumentFromReader (buff : bytes) : Document + Error :=
  inl (mkDocument buff).

Fixpoint join (sep : string) (l : list string) : string :=
  match l with
  | [] => EmptyString
  | [x] => x
  | x :: l' => x +:+ sep +:+ join sep l'
  end.

Fixpoint insert_by_key (kv : string * list string)
    (l : list (string * list string)) : list (string * list string) :=
  match l with
  | [] => [kv]
  | x :: l' =>
      if String.leb kv.1 x.1 then kv :: l else x :: insert_by_key kv l'
  end.

Section WithLib.
Context {L : Lib}.

(** [url.Values.Encode]: "k=v" pairs, sorted by key, joined by "&". *)
Definition Values_Encode (v : Values) : string :=
  join "&"
    (flat_map
       (fun kv => map (fun x => url_QueryEscape kv.1 +:+ "=" +:+ url_QueryEscape x)
                      kv.2)
       (foldr insert_by_key [] (map_to_list v))).

(** [u.Query()]. *)
Definition URL_Query (u : URL) : Values :=
  match RawQuery u with
  | EmptyString => ∅
  | q => url_ParseQuery q
  end.

(** [http.NewRequest] with one of the method constants. *)
Definition http_NewRequest (method url : string) (body : option bytes)
    : Request + Error :=
  match url_Parse url with
  | inl u => inl {| req_Method := method; req_URL := u;
                    req_Header := ∅; req_Body := body |}
  | inr e => inr e
  end.

Definition ReadAll (r : Reader) (raw : bytes) : Decoded :=
  match r with
  | BodyReader => {| dec_out := raw; dec_err := None |}
  | GzipReader => gzip_ReadAll raw
  | FlateReader => flate_ReadAll raw
  | BrotliReader => brotli_ReadAll raw
  end.

(** [ioutil.ReadAll(resp.Body)] once the reader [r] has been put over
    the body and nothing has been read through it. *)
Definition body_after_NewReader (r : Reader) (raw : bytes) : bytes :=
  match r with
  | GzipReader => drop (gzip_buffered raw) raw
  | _ => raw
  end.

(** [ioutil.ReadAll(resp.Body)] after a failed 1024-byte read through
    [r]. *)
Definition body_after_preview (r : Reader) (raw : bytes) : bytes :=
  match r with
  | BodyReader => drop (Nat.min 1024 (length raw)) raw
  | _ => drop (preview_pulled r raw) raw
  end.

(** [mahonia.NewDecoder("gbk").NewReader(reader)]. *)
Definition gbk_NewReader (d : Decoded) : Decoded :=
  {| dec_out := gbk_decode (dec_out d); dec_err := dec_err d |}.

(** [charset.NewReader(reader, contentType)]: [io.ReadFull] reads a
    preview of 1024 bytes.  When the preview is full, the stream is
    transcoded and stops as it stopped.  A stream that ends within the
    preview, or that stops there with [io.ErrUnexpectedEOF] (what flate
    and gzip report on a truncated stream), is taken for a short one:
    the new reader is over the bytes of the preview and ends without an
    error.  An empty stream fails with [io.EOF]; a stream stopped
    within the preview by any other error fails with that error. *)
Definition charset_NewReader (d : Decoded) (contentType : string)
    : Decoded + Error :=
  let transcoded := charset_transcode contentType (dec_out d) in
  if decide (1024 <= len (dec_out d))
  then inl {| dec_out := transcoded; dec_err := dec_err d |}
  else match dec_err d with
       | Some ErrUnexpectedEOF => inl {| dec_out := transcoded; dec_err := None |}
       | Some e => inr e
       | None => match dec_out d with
                 | [] => inr ErrEOF
                 | _ => inl {| dec_out := transcoded; dec_err := None |}
                 end
       end.

End WithLib.

(** ** Package browser *)

(** [type Attribute int], numbered by [iota]. *)
Definition Attribute := Z.
Definition SendReferer : Attribute := 0.
Definition MetaRefreshHandling : Attribute := 1.
Definition FollowRedirects : Attribute := 2.

Abbreviation AttributeMap := (gmap Z bool).

(** A pluggable converter: [func([]byte, string, string) []byte]. *)
Definition Converter := bytes -> string -> string -> bytes.

(** The [Browser] struct.  [client] is represented by the round-trip
    function of the surrounding [Sys]; [refresh] is never assigned and
    left out.  [state] is never [nil]: [NewBrowser] installs [&State{}]
    and the engine only stores states it has built or pushed. *)
Record Browser := mkBrowser {
  astore : jar.AsyncStore;
  state : jar.State;
  userAgent : string;
  history : jar.MemoryHistory;
  headers : Header;
  attributes : AttributeMap;
  body : bytes;
  pluggable_converters : gmap string (option Converter);
  pluggableContentTypeChecker : list string;
  reloadCounter : Z;
  maxReloads : Z
}.

Definition with_state (st : jar.State) (b : Browser) : Browser :=
  mkBrowser (astore b) st (userAgent b) (history b) (headers b)
    (attributes b) (body b) (pluggable_converters b)
    (pluggableContentTypeChecker b) (reloadCounter b) (maxReloads b).

Definition with_history (h : jar.MemoryHistory) (b : Browser) : Browser :=
  mkBrowser (astore b) (state b) (userAgent b) h (headers b)
    (attributes b) (body b) (pluggable_converters b)
    (pluggableContentTypeChecker b) (reloadCounter b) (maxReloads b).

Definition with_headers (h : Header) (b : Browser) : Browser :=
  mkBrowser (astore b) (state b) (userAgent b) (history b) h
    (attributes b) (body b) (pluggable_converters b)
    (pluggableContentTypeChecker b) (reloadCounter b) (maxReloads b).

Definition with_body (bs : bytes) (b : Browser) : Browser :=
  mkBrowser (astore b) (state b) (userAgent b) (history b) (headers b)
    (attributes b) bs (pluggable_converters b)
    (pluggableContentTypeChecker b) (reloadCounter b) (maxReloads b).

Definition with_reloadCounter (n : Z) (b : Browser) : Browser :=
  mkBrowser (astore b) (state b) (userAgent b) (history b) (headers b)
    (attributes b) (body b) (pluggable_converters b)
    (pluggableContentTypeChecker b) n (maxReloads b).

(** [bow.attributes[a]]: [false] for a missing key. *)
Definition attr (b : Browser) (a : Attribute) : bool :=
  default false (attributes b !! a).

Definition SetContentFixer (content_type : string) (b : Browser) : Browser :=
  mkBrowser (astore b) (state b) (userAgent b) (history b) (headers b)
    (attributes b) (body b) (pluggable_converters b)
    (pluggableContentTypeChecker b ++ [content_type])
    (reloadCounter b) (maxReloads b).

Definition SetConverter (content_type : string) (f : Converter)
    (b : Browser) : Browser :=
  mkBrowser (astore b) (state b) (userAgent b) (history b) (headers b)
    (attributes b) (body b)
    (<[content_type := Some f]> (pluggable_converters b))
    (pluggableContentTypeChecker b) (reloadCounter b) (maxReloads b).

Definition SetHistoryCapacity (capacity : Z) (b : Browser) : Browser :=
  with_history (jar.SetCapacity capacity (history b)) b.

Definition SetMaxReloads (max : Z) (b : Browser) : Browser :=
  mkBrowser (astore b) (state b) (userAgent b) (history b) (headers b)
    (attributes b) (body b) (pluggable_converters b)
    (pluggableContentTypeChecker b) (reloadCounter b) max.

Definition AddRequestHeader (name value : string) (b : Browser) : Browser :=
  with_headers (Header_Set name value (headers b)) b.

Definition DelRequestHeader (name : string) (b : Browser) : Browser :=
  with_headers (Header_Del name (headers b)) b.

(** Back loads the previously requested page. *)
Definition Back (b : Browser) : bool * Browser :=
  if decide (jar.Len (history b) > 1) then
    let '(st, h) := jar.Pop (history b) in
    (true, with_state (default (state b) st) (with_history h b))
  else (false, b).

(** StatusCode returns the response status code. *)
Definition StatusCode (b : Browser) : Z :=
  match jar.st_Response (state b) with
  | None => 503
  | Some r => resp_StatusCode r
  end.

(** shouldRedirect is the client's [CheckRedirect]: it answers with the
    headers of [req] as it leaves them and the error, if any.  The loop
    over [via[0].Header] is a fold over that map. *)
Definition inheritHeaders (first : Header) (h : Header) : Header :=
  map_fold
    (fun attr val (acc : Header) =>
       match acc !! attr with
       | Some _ => acc
       | None => <[attr := val]> acc
       end)
    h first.

Definition shouldRedirect (b : Browser) (req : Request) (via : list Request)
    : Header * option Error :=
  if attr b FollowRedirects then
    if decide (len via >= 10) then (req_Header req, Some ErrTooManyRedirects)
    else match via with
         | [] => (req_Header req, None)
         | first :: _ =>
             (inheritHeaders (req_Header first) (req_Header req), None)
         end
  else (req_Header req, Some (ErrLocation (URL_String (req_URL req)))).

(** isContentTypeHtml returns true when the given response sent the
    "text/html" content type. *)
Definition isContentTypeHtml (res : option Response) : bool :=
  match res with
  | Some r =>
      let ct := Header_Get (resp_Header r) "Content-Type" in
      String.eqb ct EmptyString || strings.Contains ct "text/html"
  | None => false
  end.

(** The pattern [^([A-z\/\.\+\-]+)] of [contentFix] and
    [contentConversion]: the longest non-empty prefix made of bytes in
    the range 'A'..'z' or among "/.+-". *)
Definition in_mime_class (c : Ascii.ascii) : bool :=
  ((65 <=? Ascii.N_of_ascii c)%N && (Ascii.N_of_ascii c <=? 122)%N) ||
  bool_decide (c ∈ String.list_ascii_of_string "/.+-").

Fixpoint mime_prefix (s : string) : string :=
  match s with
  | EmptyString => EmptyString
  | String c s' =>
      if in_mime_class c then String c (mime_prefix s') else EmptyString
  end.

Definition mime_match (content_type : string) : option string :=
  match mime_prefix content_type with
  | EmptyString => None
  | m => Some m
  end.

(** Check content before fix Body with specific content-type *)
Definition contentFix (b : Browser) (content_type : string) : bool :=
  match mime_match content_type with
  | Some m => bool_decide (m ∈ pluggableContentTypeChecker b)
  | None => false
  end.

(** Manipulate contents with specific content-type *)
Definition contentConversion (content_type url : string) (b : Browser)
    : Browser :=
  match mime_match content_type with
  | Some m =>
      match pluggable_converters b !! m with
      | Some (Some f) => with_body (f (body b) content_type url) b
      | _ => b
      end
  | None => b
  end.

(** The retry budget test of [httpRequest]. *)
Definition retriesExhausted (b : Browser) : bool :=
  bool_decide (reloadCounter b >= maxReloads b) && bool_decide (maxReloads b > 0)
  || bool_decide (maxReloads b = 0) && bool_decide (reloadCounter b >= 3).

Definition isCloudflare503 (resp : Response) : bool :=
  bool_decide (resp_StatusCode resp = 503) &&
  (String.eqb (Header_Get (resp_Header resp) "Server") "cloudflare-nginx" ||
   String.eqb (Header_Get (resp_Header resp) "Server") "cloudflare").

(** ** The session and its surroundings

    [net] is [bow.client.Do]: given the requests handed to it so far and
    the next one, the response and error it comes back with.  [sent]
    lists the requests handed to it, oldest first; [slept] the
    durations passed to [time.Sleep], in nanoseconds. *)
Record Sys := mkSys {
  bow : Browser;
  net : list Request -> Request -> option Response * option UrlError;
  sent : list Request;
  slept : list Z
}.

(** A call either returns, panics, or is cut off by the fuel that
    bounds the nesting of navigations. *)
Inductive Res (A : Type) :=
| Done (a : A) (s : Sys)
| Panic
| OutOfFuel.
Arguments Done {A} a s.
Arguments Panic {A}.
Arguments OutOfFuel {A}.

Definition M (A : Type) : Type := Sys -> Res A.

#[global] Instance M_ret : MRet M := fun A a s => Done a s.
#[global] Instance M_bind : MBind M := fun A B f m s =>
  match m s with
  | Done a s' => f a s'
  | Panic => Panic
  | OutOfFuel => OutOfFuel
  end.

Definition panic {A} : M A := fun _ => Panic.
Definition get_bow : M Browser := fun s => Done (bow s) s.
Definition modify_bow (f : Browser -> Browser) : M unit := fun s =>
  Done tt (mkSys (f (bow s)) (net s) (sent s) (slept s)).
Definition client_Do (req : Request)
    : M (option Response * option UrlError) := fun s =>
  Done (net s (sent s) req) (mkSys (bow s) (net s) (sent s ++ [req]) (slept s)).
Definition time_Sleep (d : Z) : M unit := fun s =>
  Done tt (mkSys (bow s) (net s) (sent s) (slept s ++ [d])).

Definition Second : Z := 1000000000.

Definition dq : string := String (Ascii.ascii_of_nat 34) EmptyString.
Definition nl : string := String (Ascii.ascii_of_nat 10) EmptyString.

Definition placeholder : bytes := bytes_of "<html></html>".

(** The patterns and selectors of [solveCF]. *)
Definition sel_script : string :=
  "script:contains(" +:+ dq +:+ "s,t,o,p,b,r,e,a,k,i,n,g" +:+ dq +:+ ")".
Definition sel_script_sp : string :=
  "script:contains(" +:+ dq +:+ "s,t,o,p, b,r,e,a,k,i,n,g" +:+ dq +:+ ")".
Definition sel_input (name : string) : string :=
  "input[name=" +:+ dq +:+ name +:+ dq +:+ "]".
Definition sel_form : string :=
  "form[id=" +:+ dq +:+ "challenge-form" +:+ dq +:+ "]".
Definition reKey : string :=
  "<div style=" +:+ dq +:+ "display:none;visibility:hidden;" +:+ dq +:+
  " id=" +:+ dq +:+ ".*?" +:+ dq +:+ ">(.*?)<".
Definition re1 : string :=
  "setTimeout\(function\(\){\s+(var s,t,o,p,b,r,e,a,k,i,n,g,f.+?\r?\n[\s\S]+?a\.value =.+?)\r?\n".
Definition new_re2 : string := "\s{3,}[atf](?: = |\.).+".
Definition new_re31 : string :=
  "function\(p\){var p = eval\(eval\(e.*?; return \+\(p\)}\(\)".
Definition new_re32 : string := "function\(p\){return eval\(\(.*?}".
Definition new_re4 : string := "\s';\s121'$".
Definition re5 : string := "a\.value\s*\=".
Definition old_re2 : string := "\s{3,}[a-z](?: = |\.).+".
Definition old_re3 : string := "[\n\\']".
Definition old_re4 : string := ";\s*\d+\s*$".

Definition splice_host (js host : string) : string :=
  strings.Replace js "s,t,o,p,b,r,e,a,k,i,n,g,f,"
    ("s,t = " +:+ dq +:+ host +:+ dq +:+ ",o,p,b,r,e,a,k,i,n,g,f,") 1.

Section Engine.
Context {L : Lib}.

(** The engine is recursive through [httpRequest]: the solver and the
    meta-refresh handling navigate again.  Its methods are written over
    [httpRequest_rec], the nested call. *)
Variable httpRequest_rec : Request -> M (option Error).

(** buildRequest creates and returns a [*http.Request] type. *)
Definition buildRequest (method url : string) (ref : option URL)
    (body : option bytes) : M (Request + Error) :=
  match http_NewRequest method url body with
  | inr e => mret (inr e)
  | inl req =>
      b ← get_bow;
      let h := Header_Set "User-Agent" (userAgent b) (headers b) in
      let h := match ref with
               | Some r => if attr b SendReferer
                           then Header_Set "Referer" (URL_String r) h else h
               | None => h
               end in
      mret (inl {| req_Method := req_Method req; req_URL := req_URL req;
                   req_Header := h; req_Body := req_Body req |})
  end.

Definition httpGET (u : URL) (ref : option URL) : M (option Error) :=
  r ← buildRequest "GET" (URL_String u) ref None;
  match r with
  | inr e => mret (Some e)
  | inl req => httpRequest_rec req
  end.

Definition httpPOST (u : URL) (ref : option URL) (contentType : string)
    (body : option bytes) : M (option Error) :=
  r ← buildRequest "POST" (URL_String u) ref body;
  match r with
  | inr e => mret (Some e)
  | inl req =>
      httpRequest_rec
        {| req_Method := req_Method req; req_URL := req_URL req;
           req_Header := Header_Set "Content-Type" contentType (req_Header req);
           req_Body := req_Body req |}
  end.

(** Open requests the given URL using the GET method. *)
Definition Open (u : string) : M (option Error) :=
  match url_Parse u with
  | inr e => mret (Some e)
  | inl ur => httpGET ur None
  end.

(** Post requests the given URL using the POST method. *)
Definition Post (u contentType : string) (body : option bytes)
    (ref : option URL) : M (option Error) :=
  match url_Parse u with
  | inr e => mret (Some e)
  | inl ur => httpPOST ur ref contentType body
  end.

Definition PostForm (u : string) (data : Values) (ref : option URL)
    : M (option Error) :=
  Post u "application/x-www-form-urlencoded"
    (Some (bytes_of (Values_Encode data))) ref.

(** Reload duplicates the last successful request. *)
Definition Reload : M (option Error) :=
  b ← get_bow;
  match jar.st_Request (state b) with
  | Some req => httpRequest_rec req
  | None => mret (Some ErrPageNotLoaded)
  end.

(** postSend sets browser state after sending a request. *)
Definition postSend : M unit :=
  b ← get_bow;
  if isContentTypeHtml (jar.st_Response (state b)) && attr b MetaRefreshHandling
  then
    match jar.st_Dom (state b) with
    | None => panic
    | Some dom =>
        if decide (Find_Length dom "meta[http-equiv='refresh']" > 0) then
          match Find_Attr dom "meta[http-equiv='refresh']" "content" with
          | Some attr =>
              match time_ParseDuration (attr +:+ "s") with
              | inl dur =>
                  if decide (reloadCounter b < maxReloads b) then
                    time_Sleep dur;;
                    modify_bow (fun b => with_reloadCounter (reloadCounter b + 1) b);;
                    _ ← Reload;
                    mret tt
                  else mret tt
              | inr _ => mret tt
              end
          | None => mret tt
          end
        else mret tt
    end
  else mret tt.

Definition httpRequestComplete (req : Request) (resp : option Response)
    (err : option Error) : M (option Error) :=
  b ← get_bow;
  let '(dom, err) :=
    match NewDocumentFromReader (body b) with
    | inl dom => (Some dom, err)
    | inr erro => (None, Some erro)
    end in
  modify_bow (fun b => with_history (jar.Push (state b) (history b)).1 b);;
  modify_bow (with_state (jar.NewHistoryState (Some req) resp dom));;
  postSend;;
  modify_bow (with_reloadCounter 0);;
  mret err.

(** The textual rewrites of the legacy script; [None] when indexing
    the match panics. *)
Definition rewrite_old (js host : string) : option string :=
  js ← match FindAllStringSubmatch re1 js with
       | [] => Some js
       | jsRE0 :: _ => jsRE0 !! 1%nat
       end;
  let js := splice_host js host in
  let js := ReplaceAllString old_re2 js EmptyString in
  let js := ReplaceAllString old_re3 js EmptyString in
  let js := ReplaceAllString old_re4 js EmptyString in
  Some (ReplaceAllString re5 js "return ").

(** The URL the legacy answer is sent to; [None] when [url.Parse]
    fails and [ur.Query()] panics. *)
Definition answer_url_old (dom : Document) (rurl : URL) (data : Value)
    : option URL :=
  let jschlVc :=
    default EmptyString (Find_Attr dom (sel_input "jschl_vc") "value") in
  let pass :=
    default EmptyString (Find_Attr dom (sel_input "pass") "value") in
  let u := Scheme rurl +:+ "://" +:+ Host rurl +:+ "/cdn-cgi/l/chk_jschl" in
  match url_Parse u with
  | inr _ => None
  | inl ur =>
      let q := URL_Query ur in
      let q := Values_Add "jschl_vc" jschlVc q in
      let q := Values_Add "pass" pass q in
      Some (URL_with_RawQuery ur
              (Values_Encode q +:+ "&jschl_answer=" +:+ Value_String data))
  end.

(** The request headers the legacy variant sets before it answers. *)
Definition answer_headers_old (rurl : URL) (b : Browser) : Browser :=
  AddRequestHeader "upgrade-insecure-requests" "1"
    (AddRequestHeader "accept-language" "ru-RU,ru;q=0.9,en-US;q=0.8,en;q=0.7"
       (AddRequestHeader "accept"
          "text/html,application/xhtml+xml,application/xml;q=0.9,image/webp,image/apng,*/*;q=0.8"
          (AddRequestHeader "Referer" (URL_String rurl)
             (DelRequestHeader "Referer" (DelRequestHeader "Cookie" b))))).

(** The legacy (GET) challenge, from the script text on. *)
Definition solveCF_old (dom : Document) (js host : string) (rurl : URL)
    : M bool :=
  match rewrite_old js host with
  | None => panic
  | Some js =>
      match otto_Eval ("(function () {" +:+ js +:+ "})()") with
      | inr _ => mret false
      | inl data =>
          match Value_ToInteger data with
          | inr _ => mret false
          | inl checksum =>
              let checksum := checksum + Z.of_nat (String.length host) in
              match answer_url_old dom rurl data with
              | None => panic
              | Some ur =>
                  modify_bow (answer_headers_old rurl);;
                  _ ← Open (URL_String ur);
                  mret true
              end
          end
      end
  end.

(** The current (POST) challenge, from the script text on. *)
Definition solveCF_new (dom : Document) (js host : string) (rurl : URL)
    : M bool :=
  match FindStringSubmatch reKey (Document_Html dom) with
  | [] => mret false
  | x =>
      match x !! 1%nat, FindAllStringSubmatch re1 js with
      | None, _ => panic
      | Some _, [] => mret false
      | Some key, m :: _ =>
          match m !! 1%nat with
          | None => panic
          | Some js =>
              let js := splice_host js host in
              let js := ReplaceAllString new_re2 js EmptyString in
              let js := ReplaceAllString new_re31 js key in
              let js := ReplaceAllString new_re32 js "t.charCodeAt" in
              let js := ReplaceAllString new_re4 js EmptyString in
              let js := ReplaceAllString re5 js "return " in
              let js := strings.Replace js ";" (";" +:+ nl) (-1) in
              match otto_Eval ("(function () {" +:+ js +:+ "})()") with
              | inr _ => mret false
              | inl data =>
                  match Value_ToInteger data with
                  | inr _ => mret false
                  | inl checksum =>
                      let checksum := checksum + Z.of_nat (String.length host) in
                      let action := html_UnescapeString
                        (default EmptyString (Find_Attr dom sel_form "action")) in
                      let jschlVc :=
                        default EmptyString (Find_Attr dom (sel_input "jschl_vc") "value") in
                      let pass :=
                        default EmptyString (Find_Attr dom (sel_input "pass") "value") in
                      let r :=
                        default EmptyString (Find_Attr dom (sel_input "r") "value") in
                      let u := Scheme rurl +:+ "://" +:+ Host rurl +:+ action in
                      let q := Values_Set "jschl_vc" jschlVc ∅ in
                      let q := Values_Add "pass" pass q in
                      let q := Values_Add "r" r q in
                      let q := Values_Add "jschl_answer" (Value_String data) q in
                      modify_bow (AddRequestHeader "Origin"
                        (Scheme rurl +:+ "://" +:+ Host rurl));;
                      modify_bow (AddRequestHeader "Accept"
                        "text/html,application/xhtml+xml,application/xml;q=0.9,image/webp,image/apng,*/*;q=0.8");;
                      modify_bow (AddRequestHeader "Accept-Language" "en-US,en;q=0.9");;
                      modify_bow (AddRequestHeader "Accept-Encoding" "gzip, deflate, br");;
                      modify_bow (AddRequestHeader "Connection" "keep-alive");;
                      modify_bow (AddRequestHeader "upgrade-insecure-requests" "1");;
                      modify_bow (AddRequestHeader "DNT" "1");;
                      _ ← PostForm u q (Some rurl);
                      b ← get_bow;
                      if decide (StatusCode b = 403) then mret false else mret true
                  end
              end
          end
      end
  end.

(** [solveCF] once past the dead-loop guard, the counter and the
    sleep: read the challenge page and pick the variant. *)
Definition solveCF_page (resp : Response) (rurl : URL) : M bool :=
  match resp_Body resp with
  | None => panic
  | Some raw =>
      let encoding := Header_Get (resp_Header resp) "Content-Encoding" in
      match
        if String.eqb encoding "gzip" then
          match gzip_NewReader raw with
          | Some e => inr e
          | None => inl GzipReader
          end
        else if String.eqb encoding "deflate" then inl FlateReader
        else inl BodyReader
      with
      | inr _ => mret false
      | inl reader =>
          let d := ReadAll reader raw in
          match dec_err d with
          | Some _ => mret false
          | None =>
              match NewDocumentFromReader (dec_out d) with
              | inr _ => mret false
              | inl dom =>
                  let host := if strings.Contains (Host rurl) "127.0.0.1"
                              then "torrentz2.eu" else Host rurl in
                  let js := Find_Text dom sel_script in
                  let js :=
                    if String.eqb js EmptyString then
                      strings.Replace (Find_Text dom sel_script_sp)
                        "s,t,o,p, b,r,e,a,k,i,n,g" "s,t,o,p,b,r,e,a,k,i,n,g" (-1)
                    else js in
                  if strings.Contains js "e = function(s)"
                  then solveCF_new dom js host rurl
                  else solveCF_old dom js host rurl
              end
          end
      end
  end.

(** Solve CloudFlare *)
Definition solveCF (resp : Response) (rurl : URL) : M bool :=
  if strings.Contains (URL_String rurl) "chk_jschl" then mret false
  else
    modify_bow (fun b => with_reloadCounter (reloadCounter b + 1) b);;
    time_Sleep (4 * Second);;
    solveCF_page resp rurl.

(** The reader chosen by the response's [Content-Encoding]. *)
Definition contentReader (encoding : string) (raw : bytes) : Reader + Error :=
  if String.eqb encoding "gzip" then
    match gzip_NewReader raw with
    | Some e => inr e
    | None => inl GzipReader
    end
  else if String.eqb encoding "deflate" then inl FlateReader
  else if String.eqb encoding "br" then inl BrotliReader
  else inl BodyReader.

(** [httpRequest] from the [Content-Encoding] switch on: the response
    is not a challenge.  A [nil] body panics at
    [defer resp.Body.Close()]. *)
Definition readResponse (req : Request) (resp : Response) : M (option Error) :=
  match resp_Body resp with
  | None => panic
  | Some raw =>
      match contentReader (Header_Get (resp_Header resp) "Content-Encoding") raw with
      | inr err => mret (Some err)
      | inl reader =>
          let contentType := Header_Get (resp_Header resp) "Content-Type" in
          b ← get_bow;
          if decide (resp_StatusCode resp ≠ 403) then
            let d :=
              if String.eqb contentType "text/html; charset=GBK" then
                gbk_NewReader (ReadAll reader raw)
              else if negb (contentFix b contentType) then
                match charset_NewReader (ReadAll reader raw) contentType with
                | inl fixedBody => fixedBody
                | inr _ => {| dec_out := body_after_preview reader raw;
                              dec_err := None |}
                end
              else {| dec_out := body_after_NewReader reader raw;
                      dec_err := None |} in
            modify_bow (with_body (dec_out d));;
            match dec_err d with
            | Some err => httpRequestComplete req (Some resp) (Some err)
            | None =>
                modify_bow (contentConversion contentType (URL_String (req_URL req)));;
                httpRequestComplete req (Some resp) None
            end
          else
            let d := ReadAll reader raw in
            modify_bow (with_body (dec_out d));;
            match dec_err d with
            | Some err => httpRequestComplete req (Some resp) (Some err)
            | None => httpRequestComplete req (Some resp) None
            end
      end
  end.

(** [httpRequest] once [client.Do] has answered without a (non-timeout)
    error. *)
Definition handleResponse (req : Request) (resp : option Response)
    : M (option Error) :=
  match resp with
  | Some r =>
      if isCloudflare503 r then
        b ← get_bow;
        if retriesExhausted b then
          httpRequestComplete req resp (Some (ErrMaxRetries (reloadCounter b)))
        else
          ok ← solveCF r (req_URL req);
          if negb ok then httpRequestComplete req resp (Some ErrUnknownAlgorithm)
          else mret None
      else readResponse req r
  | None => httpRequestComplete req resp None
  end.

(** send uses the given [*http.Request] to make an HTTP request. *)
Definition httpRequest_body (req : Request) : M (option Error) :=
  '(resp, err) ← client_Do req;
  match err with
  | Some e =>
      if ue_Timeout e then
        modify_bow (with_body placeholder);;
        handleResponse req resp
      else
        let resp :=
          if strings.HasSuffix (ue_Error e) "Service Unavailable"
          then Some {| resp_StatusCode := 503; resp_Header := ∅;
                       resp_Body := None; resp_Request := Some req |}
          else resp in
        modify_bow (with_body placeholder);;
        httpRequestComplete req resp (Some (ErrClient e))
  | None => handleResponse req resp
  end.

End Engine.

(** [httpRequest], with [fuel] bounding the depth of nested
    navigations. *)
Fixpoint httpRequest {L : Lib} (fuel : nat) (req : Request) : M (option Error) :=
  match fuel with
  | O => fun _ => OutOfFuel
  | S n => httpRequest_body (httpRequest n) req
  end.

(** [surf.NewBrowser]: empty stores, every attribute on. *)
Definition NewBrowser (ua : string) : Browser :=
  {| astore := jar.NewAsyncStore;
     state := jar.mkState None None None;
     userAgent := ua;
     history := jar.NewMemoryHistory;
     headers := ∅;
     attributes := {[ SendReferer := true; MetaRefreshHandling := true;
                      FollowRedirects := true ]};
     body := [];
     pluggable_converters := ∅;
     pluggableContentTypeChecker := [];
     reloadCounter := 0;
     maxReloads := 0 |}.

(** ** A library instance for the examples

    The libraries are implemented here on the inputs the examples
    below exercise: URLs of the form scheme://host/path?query, deflate
    streams made of stored blocks, ASCII pages, and the pages and
    scripts listed in the query tables. *)
Module fixture.

Definition drop_string (n : nat) (s : string) : string :=
  String.substring n (String.length s - n) s.

(** The position of the first '/' or '?' of [s]. *)
Fixpoint authority_end (s : string) : nat :=
  match s with
  | EmptyString => 0%nat
  | String c s' =>
      if (Ascii.N_of_ascii c =? 47)%N || (Ascii.N_of_ascii c =? 63)%N
      then 0%nat else S (authority_end s')
  end.

Definition url_Parse (u : string) : URL + Error :=
  match String.index 0 "://" u with
  | None => inr (ErrLibrary "parse: missing protocol scheme")
  | Some i =>
      let rest := drop_string (i + 3) u in
      let host := String.substring 0 (authority_end rest) rest in
      let tail := drop_string (authority_end rest) rest in
      match String.index 0 "?" tail with
      | None => inl (mkURL (String.substring 0 i u) host tail EmptyString)
      | Some j =>
          inl (mkURL (String.substring 0 i u) host
                 (String.substring 0 j tail) (drop_string (S j) tail))
      end
  end.

Definition hex_digit (n : N) : Ascii.ascii :=
  Ascii.ascii_of_N (if (n <? 10)%N then 48 + n else 55 + n).

(** [url.QueryEscape] on ASCII text. *)
Fixpoint url_QueryEscape (s : string) : string :=
  match s with
  | EmptyString => EmptyString
  | String c s' =>
      if is_lower c || is_upper c || is_digit c ||
         bool_decide (c ∈ String.list_ascii_of_string "-_.~")
      then String c (url_QueryEscape s')
      else if (Ascii.N_of_ascii c =? 32)%N then "+" +:+ url_QueryEscape s'
      else "%" +:+ String (hex_digit (Ascii.N_of_ascii c / 16))
             (String (hex_digit (Ascii.N_of_ascii c mod 16)) (url_QueryEscape s'))
  end.

(** [html.UnescapeString] on the entities the pages use. *)
Definition html_UnescapeString (s : string) : string :=
  strings.Replace s "&amp;" "&" (-1).

Definition unexpectedEOF : Error := ErrUnexpectedEOF.

(** [flate]: a stream of stored blocks (a byte with BTYPE 00, LEN, NLEN,
    then LEN literal bytes; the low bit of the first byte marks the
    last block). *)
Fixpoint flate_stored (fuel : nat) (raw : bytes) : Decoded :=
  match fuel, raw with
  | S fuel', hdr :: l0 :: l1 :: n0 :: n1 :: rest =>
      if (N.land (Byte.to_N hdr) 6 =? 0)%N then
        let n := (Byte.to_N l0 + 256 * Byte.to_N l1)%N in
        if (n + (Byte.to_N n0 + 256 * Byte.to_N n1) =? 65535)%N then
          if (N.to_nat n <=? length rest)%nat then
            if N.odd (Byte.to_N hdr)
            then {| dec_out := take (N.to_nat n) rest; dec_err := None |}
            else
              let d := flate_stored fuel' (drop (N.to_nat n) rest) in
              {| dec_out := take (N.to_nat n) rest ++ dec_out d;
                 dec_err := dec_err d |}
          else {| dec_out := rest; dec_err := Some unexpectedEOF |}
        else {| dec_out := [];
                dec_err := Some (ErrLibrary "flate: corrupt input") |}
      else {| dec_out := [];
              dec_err := Some (ErrLibrary "flate: not a stored block") |}
  | _, _ => {| dec_out := []; dec_err := Some unexpectedEOF |}
  end.

Definition flate_ReadAll (raw : bytes) : Decoded :=
  flate_stored (length raw) raw.

(** [gzip]: a ten-byte header without optional fields, a deflate
    stream, an eight-byte trailer. *)
Definition gzip_NewReader (raw : bytes) : option Error :=
  match raw with
  | x1f :: x8b :: x08 :: x00 :: _ :: _ :: _ :: _ :: _ :: _ :: _ => None
  | _ => Some (ErrLibrary "gzip: invalid header")
  end.

Definition gzip_ReadAll (raw : bytes) : Decoded :=
  flate_ReadAll (take (length raw - 18) (drop 10 raw)).

(** The challenge page of the legacy (GET) variant and its script. *)
Definition old_script : string :=
  "var s,t,o,p,b,r,e,a,k,i,n,g,f, v=168.5181599891;a.value = v".

Definition old_html : string :=
  "<html><head><script>" +:+ old_script +:+ "</script></head><body>" +:+
  "<form id='challenge-form' action='/cdn-cgi/l/chk_jschl' method='get'>" +:+
  "<input type='hidden' name='jschl_vc' value='vc123'/>" +:+
  "<input type='hidden' name='pass' value='pw456'/>" +:+
  "</form></body></html>".

Definition old_page : bytes := bytes_of old_html.

(** The challenge page of the current (POST) variant: its script, the
    hidden element with the key, and the form. *)
Definition new_script : string :=
  "setTimeout(function(){" +:+ nl +:+
  " var s,t,o,p,b,r,e,a,k,i,n,g,f, e = function(s) {return s}, v=2.4164645335;" +:+ nl +:+
  " a.value = v;" +:+ nl +:+
  "}, 4000);".

Definition new_key_div : string :=
  "<div style=" +:+ dq +:+ "display:none;visibility:hidden;" +:+ dq +:+
  " id=" +:+ dq +:+ "k1" +:+ dq +:+ ">KEY<".

Definition new_html : string :=
  "<html><head><script>" +:+ new_script +:+ "</script></head><body>" +:+
  new_key_div +:+ "/div>" +:+
  "<form id='challenge-form' action='/feed?tk=abc' method='POST'>" +:+
  "<input type='hidden' name='r' value='r789'/>" +:+
  "<input type='hidden' name='jschl_vc' value='vc123'/>" +:+
  "<input type='hidden' name='pass' value='pw456'/>" +:+
  "</form></body></html>".

Definition new_page : bytes := bytes_of new_html.

Definition is_old_page (d : Document) : bool :=
  bool_decide (doc_source d = old_page).
Definition is_new_page (d : Document) : bool :=
  bool_decide (doc_source d = new_page).

(** goquery on the two pages; a page without the element answers with
    the empty selection. *)
Definition Find_Text (d : Document) (sel : string) : string :=
  if String.eqb sel sel_script then
    if is_old_page d then old_script
    else if is_new_page d then new_script
    else EmptyString
  else EmptyString.

Definition Find_Attr (d : Document) (sel name : string) : option string :=
  if is_old_page d || is_new_page d then
    if String.eqb name "value" then
      if String.eqb sel (sel_input "jschl_vc") then Some "vc123"
      else if String.eqb sel (sel_input "pass") then Some "pw456"
      else if String.eqb sel (sel_input "r") && is_new_page d then Some "r789"
      else None
    else if String.eqb sel sel_form && String.eqb name "action" then
      Some (if is_old_page d then "/cdn-cgi/l/chk_jschl" else "/feed?tk=abc")
    else None
  else None.

Definition Find_Length (d : Document) (sel : string) : Z :=
  match Find_Attr d sel "value", Find_Attr d sel "action" with
  | None, None => if String.eqb (Find_Text d sel) EmptyString then 0 else 1
  | _, _ => 1
  end.

(** [Html()] of a page, represented by its source: the one pattern
    applied to it reads the hidden element only. *)
Definition Document_Html (d : Document) : string :=
  String.string_of_list_byte (doc_source d).

(** regexp on the two scripts and on the page of the current variant.
    [reKey] finds the hidden element of [new_html]; [re1] finds the
    body of the timeout handler of [new_script] and nothing in
    [old_script]; [re5] matches each script once, at "a.value =";
    the other patterns match neither script. *)
Definition FindStringSubmatch (re s : string) : list string :=
  if String.eqb re reKey && String.eqb s new_html then [new_key_div; "KEY"]
  else [].

Definition new_handler : string :=
  "var s,t,o,p,b,r,e,a,k,i,n,g,f, e = function(s) {return s}, v=2.4164645335;" +:+ nl +:+
  " a.value = v;".

Definition FindAllStringSubmatch (re s : string) : list (list string) :=
  if String.eqb re re1 && String.eqb s new_script
  then [["setTimeout(function(){" +:+ nl +:+ " " +:+ new_handler +:+ nl; new_handler]]
  else [].

Definition ReplaceAllString (re src repl : string) : string :=
  if String.eqb re re5 then strings.Replace src "a.value =" repl (-1)
  else src.

(** otto on the two rewritten scripts. *)
Definition old_rewritten (host : string) : string :=
  "(function () {var s,t = " +:+ dq +:+ host +:+ dq +:+
  ",o,p,b,r,e,a,k,i,n,g,f, v=168.5181599891;return  v})()".

Definition new_rewritten (host : string) : string :=
  "(function () {var s,t = " +:+ dq +:+ host +:+ dq +:+
  ",o,p,b,r,e,a,k,i,n,g,f, e = function(s) {return s}, v=2.4164645335;" +:+ nl +:+
  nl +:+ " return  v;" +:+ nl +:+ "})()".

Definition otto_Eval (js : string) : Value + Error :=
  if String.eqb js (old_rewritten "example.com")
  then inl {| Value_ToInteger := inl 168; Value_String := "168.5181599891" |}
  else if String.eqb js (new_rewritten "example.com")
  then inl {| Value_ToInteger := inl 2; Value_String := "2.4164645335" |}
  else inr (ErrLibrary "otto: script outside the table").

#[export] Instance lib : Lib :=
  Build_Lib
    url_Parse
    (fun _ => ∅)
    url_QueryEscape
    html_UnescapeString
    gzip_NewReader
    (fun raw => Nat.min 4096 (length raw))
    gzip_ReadAll
    flate_ReadAll
    (fun _ => {| dec_out := [];
                 dec_err := Some (ErrLibrary "brotli: stream outside the table") |})
    (fun _ raw => Nat.min 4096 (length raw))
    (fun b => b)
    (fun _ b => b)
    Find_Text
    Find_Attr
    Find_Length
    Document_Html
    FindStringSubmatch
    FindAllStringSubmatch
    ReplaceAllString
    otto_Eval
    (fun _ => inr (ErrLibrary "time: invalid duration")).

End fixture.

(** ** The rest of the browser

    The registration of converters and exempt types, the accessors of
    the current state, and the remaining ways to navigate. *)

Definition with_astore (a : jar.AsyncStore) (b : Browser) : Browser :=
  mkBrowser a (state b) (userAgent b) (history b) (headers b)
    (attributes b) (body b) (pluggable_converters b)
    (pluggableContentTypeChecker b) (reloadCounter b) (maxReloads b).

Definition with_checker (l : list string) (b : Browser) : Browser :=
  mkBrowser (astore b) (state b) (userAgent b) (history b) (headers b)
    (attributes b) (body b) (pluggable_converters b) l
    (reloadCounter b) (maxReloads b).

(** [isInSlice]: the position of the first [v == str], or -1.  [p] is
    the position of the head of [sl]. *)
Fixpoint isInSlice_from (p : Z) (str : string) (sl : list string) : Z :=
  match sl with
  | [] => -1
  | v :: sl' => if String.eqb v str then p else isInSlice_from (p + 1) str sl'
  end.

Definition isInSlice (str : string) (sl : list string) : Z :=
  isInSlice_from 0 str sl.

(** [append(l[:i], l[i+1:]...)]. *)
Definition ClearContentFixer (content_type : string) (b : Browser) : Browser :=
  let i := isInSlice content_type (pluggableContentTypeChecker b) in
  if decide (i ≠ -1) then
    with_checker
      (take (Z.to_nat i) (pluggableContentTypeChecker b) ++
       drop (Z.to_nat (i + 1)) (pluggableContentTypeChecker b)) b
  else b.

(** Unregister pluggable converter: the entry is set to [nil]. *)
Definition ClearConverter (content_type : string) (b : Browser) : Browser :=
  mkBrowser (astore b) (state b) (userAgent b) (history b) (headers b)
    (attributes b) (body b)
    (<[content_type := None]> (pluggable_converters b))
    (pluggableContentTypeChecker b) (reloadCounter b) (maxReloads b).

Definition GetRequestHeader (name : string) (b : Browser) : string :=
  Header_Get (headers b) name.

(** Url returns the page URL: [Some None] is [nil]; [None] is the
    panic of reading [Response.Request.URL] off a response without a
    request. *)
Definition Url (b : Browser) : option (option URL) :=
  match jar.st_Response (state b) with
  | None =>
      match jar.st_Request (state b) with
      | Some req => Some (Some (req_URL req))
      | None => Some None
      end
  | Some r =>
      match resp_Request r with
      | Some req => Some (Some (req_URL req))
      | None => None
      end
  end.

(** ResponseHeaders returns the page headers. *)
Definition ResponseHeaders (b : Browser) : Header :=
  match jar.st_Response (state b) with
  | Some r => resp_Header r
  | None => ∅
  end.

(** Manipulate contents with specific content-type *)
Definition contentAsyncConversion (content_type url : string) (bb : bytes)
    (b : Browser) : bytes :=
  match mime_match content_type with
  | Some m =>
      match pluggable_converters b !! m with
      | Some (Some f) => f bb content_type url
      | _ => bb
      end
  | None => bb
  end.

Section Navigation.
Context {L : Lib}.
Variable httpRequest_rec : Request -> M (option Error).

Definition httpHEAD (u : URL) (ref : option URL) : M (option Error) :=
  r ← buildRequest "HEAD" (URL_String u) ref None;
  match r with
  | inr e => mret (Some e)
  | inl req => httpRequest_rec req
  end.

(** Open requests the given URL using the HEAD method. *)
Definition Head (u : string) : M (option Error) :=
  match url_Parse u with
  | inr e => mret (Some e)
  | inl ur => httpHEAD ur None
  end.

(** OpenForm appends the data values to the given URL and sends a GET
    request. *)
Definition OpenForm (u : string) (data : Values) : M (option Error) :=
  match url_Parse u with
  | inr e => mret (Some e)
  | inl ul =>
      Open httpRequest_rec (URL_String (URL_with_RawQuery ul (Values_Encode data)))
  end.

(** [httpAsyncRequest].  It goes through a client of its own
    ([bow.buildClient()]), here the same round trip [net]; [now] is the
    reading of the clock when the store is written.  The body is read
    off [resp.Body] as it comes: there is no [Content-Encoding] switch
    and no challenge test. *)
Definition httpAsyncRequest (now : jar.Time) (req : Request) (name : string)
    : M (option Error) :=
  '(resp, err) ← client_Do req;
  bb ← match resp with
       | None => mret placeholder
       | Some r =>
           match resp_Body r with
           | None => panic
           | Some raw =>
               let contentType := Header_Get (resp_Header r) "Content-Type" in
               b ← get_bow;
               if decide (resp_StatusCode r ≠ 403) then
                 let d :=
                   if String.eqb contentType "text/html; charset=GBK" then
                     gbk_NewReader (ReadAll BodyReader raw)
                   else if negb (contentFix b contentType) then
                     match charset_NewReader (ReadAll BodyReader raw) contentType with
                     | inl fixedBody => fixedBody
                     | inr _ => {| dec_out := body_after_preview BodyReader raw;
                                   dec_err := None |}
                     end
                   else ReadAll BodyReader raw in
                 let bb := match dec_err d with
                           | Some _ => placeholder
                           | None => dec_out d
                           end in
                 mret (contentAsyncConversion contentType
                         (URL_String (req_URL req)) bb b)
               else mret placeholder
           end
       end;
  let dom := match NewDocumentFromReader bb with
             | inl dom => dom
             | inr _ => mkDocument placeholder
             end in
  modify_bow (fun b => with_astore (jar.AsyncStore_Set now name (Some dom) (astore b)) b);;
  modify_bow (fun b => with_history (jar.Push (state b) (history b)).1 b);;
  modify_bow (with_state (jar.NewHistoryState (Some req) resp (Some dom)));;
  postSend httpRequest_rec;;
  modify_bow (with_reloadCounter 0);;
  mret None.

Definition httpAsyncGET (now : jar.Time) (u : URL) (ref : option URL)
    (name : string) : M (option Error) :=
  r ← buildRequest "GET" (URL_String u) ref None;
  match r with
  | inr e => mret (Some e)
  | inl req => httpAsyncRequest now req name
  end.

Definition OpenAsync (now : jar.Time) (u name : string) : M (option Error) :=
  match url_Parse u with
  | inr e => mret (Some e)
  | inl ur => httpAsyncGET now ur None name
  end.

End Navigation.

(** ** Runs used in the statements *)

(** A sequence of pushes, oldest first. *)
Definition push_all (ps : list jar.State) (his : jar.MemoryHistory)
    : jar.MemoryHistory :=
  foldl (fun h p => (jar.Push p h).1) his ps.

(** What a call returned, and the session it left. *)
Definition returned {A} (r : Res A) : option A :=
  match r with
  | Done a _ => Some a
  | _ => None
  end.

Definition final {A} (r : Res A) : option Sys :=
  match r with
  | Done _ s => Some s
  | _ => None
  end.

(** The requests of a session as they went out: method and URL. *)
Definition wire (s : Sys) : list (string * string) :=
  map (fun r => (req_Method r, URL_String (req_URL r))) (sent s).

(** The session once [client.Do] has been handed [req]. *)
Definition requested (req : Request) (s : Sys) : Sys :=
  mkSys (bow s) (net s) (sent s ++ [req]) (slept s).

(** The session with [bow.body] set to [bs]. *)
Definition bodied (bs : bytes) (s : Sys) : Sys :=
  mkSys (with_body bs (bow s)) (net s) (sent s) (slept s).

(** The session [httpRequestComplete] hands to [postSend]: the previous
    state pushed, the new state built from [bow.body]. *)
Definition installed (req : Request) (resp : option Response) (s : Sys) : Sys :=
  mkSys
    (with_state
       (jar.NewHistoryState (Some req) resp (Some (mkDocument (body (bow s)))))
       (with_history (jar.Push (state (bow s)) (history (bow s))).1 (bow s)))
    (net s) (sent s) (slept s).

(** The session at the end of [httpRequestComplete] when
    post-processing finds nothing to reload: the previous state pushed,
    the new state built from [bow.body], the counter at 0. *)
Definition completed (req : Request) (resp : option Response) (s : Sys) : Sys :=
  mkSys
    (with_reloadCounter 0
       (with_state
          (jar.NewHistoryState (Some req) resp (Some (mkDocument (body (bow s)))))
          (with_history (jar.Push (state (bow s)) (history (bow s))).1 (bow s))))
    (net s) (sent s) (slept s).

(** The session once a solve attempt is past the dead-loop guard: the
    counter incremented, four seconds slept. *)
Definition attempted (s : Sys) : Sys :=
  mkSys (with_reloadCounter (reloadCounter (bow s) + 1) (bow s))
    (net s) (sent s) (slept s ++ [4 * Second]).

(** The response [httpRequest] makes up for an error whose text ends in
    "Service Unavailable". *)
Definition unavailable (req : Request) : Response :=
  {| resp_StatusCode := 503; resp_Header := ∅;
     resp_Body := None; resp_Request := Some req |}.

(** Sessions, requests and round trips of the examples. *)
Module scenario.

Definition page : URL := mkURL "http" "example.com" "/feed" "f=1".

Definition get (u : URL) : Request :=
  mkRequest "GET" u {[ "User-Agent" := ["surf"] ]} None.

(** A challenge response of the edge proxy. *)
Definition challenge (b : bytes) : Response :=
  mkResponse 503 {[ "Server" := ["cloudflare-nginx"] ]} (Some b) None.

(** A round trip that always ends the same way. *)
Definition always (o : option Response * option UrlError)
    : list Request -> Request -> option Response * option UrlError :=
  fun _ _ => o.

Definition session (b : Browser)
    (n : list Request -> Request -> option Response * option UrlError) : Sys :=
  mkSys b n [] [].

(** A browser that has used up the default budget of three reloads. *)
Definition spent : Browser := with_reloadCounter 3 (NewBrowser "surf").

(** Three ways for the round trip to fail. *)
Definition refused : UrlError :=
  mkUrlError "Get http://example.com/feed?f=1: dial tcp: connection refused" false.
Definition unavail : UrlError :=
  mkUrlError "Get http://example.com/feed?f=1: Service Unavailable" false.
Definition timedout : UrlError :=
  mkUrlError
    "Get http://example.com/feed?f=1: net/http: request canceled (Client.Timeout exceeded while awaiting headers)"
    true.

(** A deflate stream of one stored block holding "<a>hi</a>", sent as
    XML, and a browser for which XML is exempt from charset handling. *)
Definition xml : bytes := bytes_of "<a>hi</a>".
Definition xml_deflated : bytes := [x01; x09; x00; xf6; xff] ++ xml.
Definition deflated : Response :=
  mkResponse 200
    {[ "Content-Encoding" := ["deflate"]; "Content-Type" := ["application/xml"] ]}
    (Some xml_deflated) None.
Definition exempt : Browser := SetContentFixer "application/xml" (NewBrowser "surf").

(** The first round trip meets the legacy challenge, later ones the
    page behind it. *)
Definition challenged_once (past : list Request) (_ : Request)
    : option Response * option UrlError :=
  match past with
  | [] => (Some (challenge fixture.old_page), None)
  | _ => (Some (mkResponse 200 ∅ (Some (bytes_of "OK")) None), None)
  end.

(** The URL of a legacy answer. *)
Definition solving : URL :=
  mkURL "http" "example.com" "/cdn-cgi/l/chk_jschl"
    "jschl_vc=vc123&pass=pw456&jschl_answer=168.5181599891".

(** A nested call that returns at once: it stops a chain of
    navigations where the next request would go out. *)
Definition probe : Request -> M (option Error) := fun _ s => Done None s.

(** Every round trip meets the challenge of the current variant.  The
    session after three solve attempts in a row, at the point where the
    fourth request goes out, and that request (it repeats the third). *)
Definition challenged_always : Sys :=
  session (NewBrowser "surf") (always (Some (challenge fixture.new_page), None)).

Definition three_attempts : Sys :=
  default challenged_always
    (final (httpRequest_body (L := fixture.lib)
              (httpRequest_body (L := fixture.lib)
                 (httpRequest_body (L := fixture.lib) probe))
              (get page) challenged_always)).

Definition fourth_request : Request :=
  default (get page) (last (sent three_attempts)).

(** The browser after a navigation that was refused a connection. *)
Definition after_refused : Browser :=
  default (NewBrowser "surf")
    (bow <$> final (httpRequest (L := fixture.lib) 1 (get page)
                      (session (NewBrowser "surf") (always (None, Some refused))))).

End scenario.

(** ** What a navigation leaves alone

    [settled b b']: the settings of the session are those of [b], and
    the history has only been pushed to.  The request headers are not
    among the settings: solving a challenge adds to [bow.headers], and
    what it adds stays ([settled_upgrade] says so for one header).
    [follows s s']: the session [s'] comes after [s], with the settings
    kept, the same network, and requests and sleeps only added.
    [keeps m]: whenever [m] returns, the session it leaves follows the
    one it started from. *)
Record settled (b b' : Browser) : Prop := mkSettled {
  settled_astore : astore b' = astore b;
  settled_userAgent : userAgent b' = userAgent b;
  settled_attributes : attributes b' = attributes b;
  settled_converters : pluggable_converters b' = pluggable_converters b;
  settled_checker : pluggableContentTypeChecker b' = pluggableContentTypeChecker b;
  settled_maxReloads : maxReloads b' = maxReloads b;
  settled_Capacity : jar.Capacity (history b') = jar.Capacity (history b);
  settled_disabled :
    jar.Capacity (history b) <= 0 -> jar.states (history b') = jar.states (history b);
  settled_bounded :
    jar.Len (history b) <= jar.Capacity (history b) ->
    jar.Len (history b') <= jar.Capacity (history b');
  settled_upgrade :
    GetRequestHeader "Upgrade-Insecure-Requests" b = "1" ->
    GetRequestHeader "Upgrade-Insecure-Requests" b' = "1"
}.

Record follows (s s' : Sys) : Prop := mkFollows {
  follows_bow : settled (bow s) (bow s');
  follows_net : net s' = net s;
  follows_sent : sent s `prefix_of` sent s';
  follows_slept : slept s `prefix_of` slept s'
}.

Definition keeps {A} (m : M A) : Prop :=
  forall s a s', m s = Done a s' -> follows s s'.

(** [n] calls of [Pop] in a row. *)
Definition pops (n : nat) (his : jar.MemoryHistory) : jar.MemoryHistory :=
  Nat.iter n (fun h => (jar.Pop h).2) his.

(** What may follow the MIME type in a content type: nothing, or text
    that starts with a byte outside the class of the pattern, as
    "; charset=utf-8" does. *)
Definition stops_mime (params : string) : bool :=
  match params with
  | EmptyString => true
  | String c _ => negb (in_mime_class c)
  end.

(** ASCII lower case, to say that two header names differ in case
    only. *)
Definition lower (c : Ascii.ascii) : Ascii.ascii :=
  if is_upper c then Ascii.ascii_of_N (Ascii.N_of_ascii c + 32) else c.

Fixpoint ToLower (s : string) : string :=
  match s with
  | EmptyString => EmptyString
  | String c s' => String (lower c) (ToLower s')
  end.

(** A session that meets the response [resp] on every round trip, with
    no converter and no exempt type registered, and with the handling
    of meta refreshes on. *)
Definition refreshing (resp : Response) (s : Sys) : Prop :=
  (forall past q, net s past q = (Some resp, None))
  /\ pluggable_converters (bow s) = ∅
  /\ pluggableContentTypeChecker (bow s) = []
  /\ attr (bow s) MetaRefreshHandling = true.

(** ** More runs for the statements *)

(** A library that knows one more page: one that asks to be refreshed
    after two seconds.  Everything else is as in [fixture]. *)
Module refresh.

Definition html : string :=
  "<html><head><meta http-equiv='refresh' content='2'></head><body>wait</body></html>".

Definition page : bytes := bytes_of html.

Definition is_page (d : Document) (sel : string) : bool :=
  bool_decide (doc_source d = page) && String.eqb sel "meta[http-equiv='refresh']".

Definition Find_Length (d : Document) (sel : string) : Z :=
  if is_page d sel then 1 else fixture.Find_Length d sel.

Definition Find_Attr (d : Document) (sel name : string) : option string :=
  if is_page d sel then
    if String.eqb name "content" then Some "2"
    else if String.eqb name "http-equiv" then Some "refresh"
    else None
  else fixture.Find_Attr d sel name.

Definition time_ParseDuration (s : string) : Z + Error :=
  if String.eqb s "2s" then inl (2 * Second)
  else inr (ErrLibrary "time: invalid duration").

Definition lib : Lib :=
  Build_Lib
    fixture.url_Parse
    (fun _ => ∅)
    fixture.url_QueryEscape
    fixture.html_UnescapeString
    fixture.gzip_NewReader
    (fun raw => Nat.min 4096 (length raw))
    fixture.gzip_ReadAll
    fixture.flate_ReadAll
    (fun _ => {| dec_out := [];
                 dec_err := Some (ErrLibrary "brotli: stream outside the table") |})
    (fun _ raw => Nat.min 4096 (length raw))
    (fun b => b)
    (fun _ b => b)
    fixture.Find_Text
    Find_Attr
    Find_Length
    fixture.Document_Html
    fixture.FindStringSubmatch
    fixture.FindAllStringSubmatch
    fixture.ReplaceAllString
    fixture.otto_Eval
    time_ParseDuration.

End refresh.

Module tour.

Definition home : URL := mkURL "http" "example.com" "/" EmptyString.

Definition get (u : URL) : Request :=
  mkRequest "GET" u {[ "User-Agent" := ["surf"] ]} None.

(** The page that asks to be refreshed, as the client hands it over. *)
Definition waiting : Response :=
  mkResponse 200 {[ "Content-Type" := ["text/html"] ]} (Some refresh.page)
    (Some (get home)).

(** A browser that follows two refreshes, on a network that always
    answers with that page. *)
Definition patient : Sys :=
  mkSys (SetMaxReloads 2 (NewBrowser "surf"))
    (fun _ _ => (Some waiting, None)) [] [].

(** A response that announces gzip over a body that is plain text. *)
Definition mislabelled : Response :=
  mkResponse 200
    {[ "Content-Encoding" := ["gzip"]; "Content-Type" := ["text/html"] ]}
    (Some (bytes_of "<html>plain</html>")) (Some (get home)).

(** A browser that has loaded a page, on a network that answers with
    the mislabelled response from then on. *)
Definition loaded : jar.State :=
  jar.NewHistoryState (Some (get home))
    (Some (mkResponse 200 ∅ (Some (bytes_of "OK")) (Some (get home))))
    (Some (mkDocument (bytes_of "OK"))).

Definition visiting : Sys :=
  mkSys (with_body (bytes_of "OK") (with_state loaded (NewBrowser "surf")))
    (fun _ _ => (Some mislabelled, None)) [get home] [].

(** A browser with a history of two places, one of them taken, and a
    network that refuses every connection. *)
Definition refused : UrlError :=
  mkUrlError "Get http://example.com/: dial tcp: connection refused" false.

Definition recording : Sys :=
  mkSys
    (with_history (jar.mkMemoryHistory [jar.mkState None None None] 2)
       (with_state loaded (NewBrowser "surf")))
    (fun _ _ => (None, Some refused)) [] [].

(** A new browser on the same network. *)
Definition offline : Sys :=
  mkSys (NewBrowser "surf") (fun _ _ => (None, Some refused)) [] [].

End tour.

(** ** form.go: the default form element

    A form holds its fields, checkboxes and buttons as read off the
    page.  [selection] is what [f.selection.Attr] answers for an
    attribute name of the form element.  The browser behind [f.bow] is
    an interface: [send] ends in a call of one of its methods, and is
    represented by the call it makes. *)
Module form.

Record Field := mkField { field_name : string; field_value : string }.

Record Checkbox := mkCheckbox {
  box_name : string;
  box_value : string;
  checked : bool
}.

Record Button := mkButton { button_name : string; button_value : string }.

Record Form := mkForm {
  selection : string -> option string;
  method : string;
  action : string;
  fields : list Field;
  checkboxes : list Checkbox;
  buttons : list Button
}.

Inductive FormError :=
| ErrElementNotFound (name : string)
    (* errors.NewElementNotFound("No input found with name '%s'.") *)
| ErrInvalidFormValue (button : string)
    (* errors.NewInvalidFormValue("Form does not contain a button with the name '%s'.") *)
| ErrParse (e : Error).
    (* returned by url.Parse *)

(** The method of the browser a submission ends in. *)
Inductive Call :=
| CallOpenForm (u : string) (data : Values)
| CallPostMultipart (u : string) (data : Values)
| CallPostForm (u : string) (data : Values).

Inductive Outcome :=
| Calls (c : Call)
| Fails (e : FormError)
| Panics.

Definition with_inputs (fl : list Field) (cb : list Checkbox) (f : Form) : Form :=
  mkForm (selection f) (method f) (action f) fl cb (buttons f).

(** Input sets the value of a form field. *)
Definition Input (name value : string) (f : Form) : Form * option FormError :=
  let fields' :=
    map (fun fl => if String.eqb (field_name fl) name
                   then mkField (field_name fl) value else fl) (fields f) in
  let checkboxes' :=
    map (fun c => if String.eqb (box_name c) name && String.eqb (box_value c) value
                  then mkCheckbox (box_name c) (box_value c) (negb (checked c))
                  else c) (checkboxes f) in
  let found :=
    existsb (fun fl => String.eqb (field_name fl) name) (fields f) ||
    existsb (fun c => String.eqb (box_name c) name && String.eqb (box_value c) value)
      (checkboxes f) in
  (with_inputs fields' checkboxes' f,
   if found then None else Some (ErrElementNotFound name)).

Section Send.
Context {L : Lib}.

(** [strings.ToUpper], and the two methods of the browser [send]
    reads: [Url()], which may be [nil], and [ResolveUrl], which may
    panic. *)
Variable ToUpper : string -> string.
Variable bow_Url : option URL.
Variable ResolveUrl : URL -> option URL.

(** The values [send] collects: the fields, the checkboxes that are
    checked, the button if it has a name. *)
Definition values (f : Form) (buttonName buttonValue : string) : Values :=
  let values :=
    foldl (fun v fl => Values_Add (field_name fl) (field_value fl) v) ∅ (fields f) in
  let values :=
    foldl (fun v c => if checked c then Values_Add (box_name c) (box_value c) v else v)
      values (checkboxes f) in
  if negb (String.eqb buttonName EmptyString)
  then Values_Add buttonName buttonValue values
  else values.

(** send submits the form. *)
Definition send (f : Form) (buttonName buttonValue : string) : Outcome :=
  let method := default "GET" (selection f "method") in
  match
    match selection f "action" with
    | Some a => Some a
    | None => option_map URL_String bow_Url
    end
  with
  | None => Panics
  | Some action =>
      match url_Parse action with
      | inr e => Fails (ErrParse e)
      | inl aurl =>
          match ResolveUrl aurl with
          | None => Panics
          | Some aurl =>
              let data := values f buttonName buttonValue in
              if String.eqb (ToUpper method) "GET" then
                Calls (CallOpenForm (URL_String aurl) data)
              else if String.eqb (default EmptyString (selection f "enctype"))
                        "multipart/form-data"
              then Calls (CallPostMultipart (URL_String aurl) data)
              else Calls (CallPostForm (URL_String aurl) data)
          end
      end
  end.

(** Click submits the form by clicking the button with the given
    name. *)
Definition Click (button : string) (f : Form) : Outcome :=
  match List.find (fun b => String.eqb (button_name b) button) (buttons f) with
  | Some b => send f (button_name b) (button_value b)
  | None => Fails (ErrInvalidFormValue button)
  end.

(** Submit submits the form. *)
Definition Submit (f : Form) : Outcome :=
  match buttons f with
  | b :: _ => Click (button_name b) f
  | [] => send f EmptyString EmptyString
  end.

End Send.

End form.

(** * Properties *)

(** ** The history stack *)

Lemma len_app {A} (l k : list A) : len (l ++ k) = len l + len k.
Proof. unfold len. rewrite length_app. lia. Qed.

Lemma push_all_snoc ps p his :
  push_all (ps ++ [p]) his = (jar.Push p (push_all ps his)).1.
Proof. unfold push_all. by rewrite foldl_app. Qed.

Lemma Push_Capacity p his : jar.Capacity (jar.Push p his).1 = jar.Capacity his.
Proof.
  unfold jar.Push; simpl.
  destruct (decide (jar.Capacity his > 0)); [|done].
  by destruct (decide (len (jar.states his ++ [p]) > jar.Capacity his)).
Qed.

Lemma push_all_Capacity ps his :
  jar.Capacity (push_all ps his) = jar.Capacity his.
Proof.
  induction ps as [|p ps IH] using rev_ind; [done|].
  by rewrite push_all_snoc, Push_Capacity.
Qed.

Lemma push_all_disabled ps his :
  jar.Capacity his <= 0 -> push_all ps his = his.
Proof.
  intros HC. induction ps as [|p ps IH] using rev_ind; [done|].
  rewrite push_all_snoc, IH. unfold jar.Push; simpl.
  destruct (decide (jar.Capacity his > 0)); [lia|done].
Qed.

Lemma push_all_states C ps :
  C > 0 ->
  jar.states (push_all ps (jar.mkMemoryHistory [] C))
  = drop (length ps - Z.to_nat C) ps.
Proof.
  intros HC. induction ps as [|p ps IH] using rev_ind; [done|].
  rewrite push_all_snoc. unfold jar.Push; simpl.
  rewrite push_all_Capacity; simpl.
  destruct (decide (C > 0)); [|lia].
  rewrite IH, length_app; simpl.
  destruct (decide (len (drop (length ps - Z.to_nat C) ps ++ [p]) > C)) as [Hgt|Hle];
    simpl; unfold len in *; rewrite length_app, length_drop in *; simpl in *.
  - rewrite <- (drop_app_le ps [p]) by lia.
    rewrite drop_drop. f_equal. lia.
  - replace (length ps - Z.to_nat C)%nat with 0%nat by lia.
    replace (length ps + 1 - Z.to_nat C)%nat with 0%nat by lia.
    done.
Qed.

(** C7. Starting from an empty stack of capacity [C], after the pushes
    [ps] (oldest first): when [C > 0] the stack holds the last
    [min (len ps) C] of them, in the order they were pushed, and [Len]
    is [min (len ps) C]; when [C] is [0] (or negative) every push leaves
    the stack as it is, and [Len] stays [0]. *)
Theorem Push_keeps_most_recent (C : Z) (ps : list jar.State) :
  let his := push_all ps (jar.mkMemoryHistory [] C) in
  jar.states his = (if decide (C > 0) then drop (length ps - Z.to_nat C) ps else [])
  /\ jar.Len his = (if decide (C > 0) then Z.min (len ps) C else 0)
  /\ forall p h, jar.Capacity h = 0 -> jar.Push p h = (h, jar.Len h).
Proof.
  simpl. split; [|split].
  - destruct (decide (C > 0)); [by apply push_all_states|].
    by rewrite push_all_disabled by (simpl; lia).
  - unfold jar.Len. destruct (decide (C > 0)).
    + rewrite push_all_states by done. unfold len. rewrite length_drop. lia.
    + by rewrite push_all_disabled by (simpl; lia).
  - intros p h Hh. unfold jar.Push. rewrite Hh.
    destruct (decide (0 > 0)); [lia|done].
Qed.

Lemma Push_keeps_most_recent_witness :
  let st n := jar.mkState None None (Some (mkDocument (bytes_of n))) in
  jar.states (push_all [st "a"; st "b"; st "c"] (jar.mkMemoryHistory [] 2))
  = [st "b"; st "c"]
  /\ jar.Push (st "a") (jar.mkMemoryHistory [] 0) = (jar.mkMemoryHistory [] 0, 0).
Proof.
  intros st. split.
  - exact (proj1 (Push_keeps_most_recent 2 [st "a"; st "b"; st "c"])).
  - apply (Push_keeps_most_recent 0 []). reflexivity.
Defined.

Lemma Pop_snoc init x C :
  jar.Pop (jar.mkMemoryHistory (init ++ [x]) C)
  = (Some x, jar.mkMemoryHistory (match init with [] => [x] | _ => init end) C).
Proof.
  unfold jar.Pop; simpl. unfold len. rewrite length_app; simpl.
  destruct (decide (Z.of_nat (length init + 1) > 0)); [|lia].
  rewrite last_snoc.
  destruct (decide (Z.of_nat (length init + 1) > 1)) as [H1|H1].
  - replace (length init + 1 - 1)%nat with (length init) by lia.
    rewrite take_app_length. destruct init; [simpl in H1; lia|done].
  - destruct init; [done|simpl in H1; lia].
Qed.

(** C8. [Pop] on a history whose most recent entry is [x] returns [x];
    it removes [x] when older entries exist and leaves the history as
    it is when [x] is the only entry (on an empty history it returns
    [nil]).  [Back] returns true, makes the popped entry current and
    drops it from the history when [Len] is greater than 1 before the
    call; otherwise it returns false and changes nothing. *)
Theorem Pop_and_Back (init : list jar.State) (x : jar.State) (C : Z) (b : Browser) :
  let his := jar.mkMemoryHistory (init ++ [x]) C in
  (jar.Pop his).1 = Some x
  /\ jar.states (jar.Pop his).2 = (if decide (jar.Len his = 1) then [x] else init)
  /\ jar.Pop (jar.mkMemoryHistory [] C) = (None, jar.mkMemoryHistory [] C)
  /\ Back (with_history his b)
     = (if decide (jar.Len his > 1)
        then (true, with_state x (with_history (jar.mkMemoryHistory init C) b))
        else (false, with_history his b))
  /\ Back (with_history (jar.mkMemoryHistory [] C) b)
     = (false, with_history (jar.mkMemoryHistory [] C) b).
Proof.
  simpl. rewrite Pop_snoc. simpl.
  assert (Hlen : jar.Len (jar.mkMemoryHistory (init ++ [x]) C) = len init + 1).
  { unfold jar.Len; simpl. by rewrite len_app. }
  rewrite Hlen. repeat split.
  - destruct (decide (len init + 1 = 1)) as [H|H];
      destruct init; try done; unfold len in H; simpl in H; lia.
  - unfold Back. simpl. rewrite Hlen.
    destruct (decide (len init + 1 > 1)) as [H|H]; [|done].
    rewrite Pop_snoc. destruct init; [unfold len in H; simpl in H; lia|].
    by destruct b.
Qed.

(** ** The async store *)

(** C9. [Set] overwrites whatever is stored under the name: after
    [Set(x, D1)] and then [Set(x, D2)], [Get(x)] returns the entry
    holding [D2]; and [Get] of a name that was never set returns the
    empty entry (no document, zero time), not an error. *)
Theorem AsyncStore_last_write_wins (a : jar.AsyncStore) (x y : string)
    (D1 D2 : option Document) (t1 t2 : jar.Time) :
  jar.AsyncStore_Get x (jar.AsyncStore_Set t2 x D2 (jar.AsyncStore_Set t1 x D1 a))
  = jar.mkAsyncDom t2 D2
  /\ jar.D (jar.AsyncStore_Get x
             (jar.AsyncStore_Set t2 x D2 (jar.AsyncStore_Set t1 x D1 a))) = D2
  /\ jar.AsyncStore_Get y jar.NewAsyncStore = jar.emptyAsyncDom
  /\ (jar.doms a !! y = None -> jar.AsyncStore_Get y a = jar.emptyAsyncDom).
Proof.
  unfold jar.AsyncStore_Get, jar.AsyncStore_Set; simpl.
  rewrite lookup_insert_eq. repeat split; try done.
  intros Hy. by rewrite Hy.
Qed.

Lemma AsyncStore_last_write_wins_witness :
  jar.AsyncStore_Get "unknown"
    (jar.AsyncStore_Set 1 "x" (Some (mkDocument (bytes_of "D1"))) jar.NewAsyncStore)
  = jar.emptyAsyncDom.
Proof.
  apply (AsyncStore_last_write_wins
           (jar.AsyncStore_Set 1 "x" (Some (mkDocument (bytes_of "D1"))) jar.NewAsyncStore)
           "x" "unknown" None None 0 0).
  vm_compute. reflexivity.
Defined.

(** ** Status of a state without a response *)

(** C10. When the current state carries no response, [StatusCode]
    returns 503; it reads the status of the response otherwise.  It is
    a total function of the session. *)
Theorem StatusCode_without_response (b : Browser) :
  StatusCode b = match jar.st_Response (state b) with
                 | None => 503
                 | Some r => resp_StatusCode r
                 end
  /\ (jar.st_Response (state b) = None -> StatusCode b = 503).
Proof.
  unfold StatusCode. split; [done|]. by intros ->.
Qed.

Lemma StatusCode_without_response_witness :
  StatusCode (NewBrowser "surf") = 503
  /\ StatusCode scenario.after_refused = 503.
Proof.
  split.
  - apply (StatusCode_without_response (NewBrowser "surf")). reflexivity.
  - apply (StatusCode_without_response scenario.after_refused).
    vm_compute. reflexivity.
Defined.

(** ** Redirect policy *)

Lemma inheritHeaders_lookup (first h : Header) (k : string) :
  inheritHeaders first h !! k
  = match h !! k with
    | Some v => Some v
    | None => first !! k
    end.
Proof.
  unfold inheritHeaders.
  apply (map_fold_weak_ind
           (fun (r : Header) (m : Header) =>
              r !! k = match h !! k with Some v => Some v | None => m !! k end)).
  - rewrite lookup_empty. by destruct (h !! k).
  - intros i x m r Hi IH.
    destruct (r !! i) as [w|] eqn:Hri.
    + rewrite IH. destruct (h !! k) as [v|] eqn:Hk; [done|].
      destruct (decide (i = k)) as [->|Hne].
      * rewrite IH, Hi in Hri. done.
      * by rewrite lookup_insert_ne.
    + destruct (decide (i = k)) as [->|Hne].
      * rewrite !lookup_insert_eq. rewrite IH in Hri.
        destruct (h !! k); [done|done].
      * rewrite !lookup_insert_ne by done. done.
Qed.

(** C6. A redirect decision is taken for the request [req] about to be
    sent and the requests [via] already made, the first of them the
    original one; the chain has [len via + 1] hops.  With
    follow-redirects off the decision is the redirects-disabled error,
    whatever the chain.  With it on, a chain of more than 10 hops is
    refused with "too many redirects"; a shorter one is accepted, and
    after the first hop the request carries every header it already
    had, unchanged, and every header of the original request that it
    did not have. *)
Theorem shouldRedirect_policy (b : Browser) (req : Request) (via : list Request) :
  (attr b FollowRedirects = false ->
     shouldRedirect b req via
     = (req_Header req, Some (ErrLocation (URL_String (req_URL req)))))
  /\ (attr b FollowRedirects = true -> len via + 1 > 10 ->
        (shouldRedirect b req via).2 = Some ErrTooManyRedirects)
  /\ (attr b FollowRedirects = true -> len via + 1 <= 10 ->
        (shouldRedirect b req via).2 = None
        /\ forall first rest, via = first :: rest ->
             forall k,
               (shouldRedirect b req via).1 !! k
               = match req_Header req !! k with
                 | Some v => Some v
                 | None => req_Header first !! k
                 end).
Proof.
  unfold shouldRedirect. repeat split.
  - by intros ->.
  - intros -> Hlen. destruct (decide (len via >= 10)); [done|lia].
  - revert H H0. intros -> Hlen.
    destruct (decide (len via >= 10)); [lia|]. by destruct via.
  - revert H H0. intros -> Hlen first rest -> k.
    destruct (decide (len (first :: rest) >= 10)); [lia|].
    simpl. apply inheritHeaders_lookup.
Qed.

Lemma shouldRedirect_policy_witness :
  let u := mkURL "http" "example.com" "/b" EmptyString in
  let first := mkRequest "GET" u {[ "Accept" := ["text/html"]; "X-Token" := ["t0"] ]} None in
  let req := mkRequest "GET" u {[ "Accept" := ["*/*"] ]} None in
  (shouldRedirect (NewBrowser "surf") req [first]).2 = None
  /\ (shouldRedirect (NewBrowser "surf") req [first]).1 !! "X-Token" = Some ["t0"]
  /\ (shouldRedirect (NewBrowser "surf") req [first]).1 !! "Accept" = Some ["*/*"]
  /\ (shouldRedirect (NewBrowser "surf") req (replicate 10 first)).2
     = Some ErrTooManyRedirects
  /\ (shouldRedirect (SetMaxReloads 0 (mkBrowser jar.NewAsyncStore
        (jar.mkState None None None) "surf" jar.NewMemoryHistory ∅
        {[ FollowRedirects := false ]} [] ∅ [] 0 0)) req [first]).2
     = Some (ErrLocation "http://example.com/b").
Proof.
  intros u first req.
  pose proof (shouldRedirect_policy (NewBrowser "surf") req [first]) as (_ & _ & H3).
  destruct H3 as [Hnone Hhdr]; [reflexivity | vm_compute; congruence |].
  pose proof (shouldRedirect_policy (NewBrowser "surf") req (replicate 10 first))
    as (_ & H2 & _).
  pose proof (shouldRedirect_policy (SetMaxReloads 0 (mkBrowser jar.NewAsyncStore
        (jar.mkState None None None) "surf" jar.NewMemoryHistory ∅
        {[ FollowRedirects := false ]} [] ∅ [] 0 0)) req [first]) as (H1 & _ & _).
  split; [exact Hnone|].
  split; [rewrite (Hhdr first [] eq_refl "X-Token"); reflexivity|].
  split; [rewrite (Hhdr first [] eq_refl "Accept"); reflexivity|].
  split; [apply H2; [reflexivity | vm_compute; reflexivity]|].
  rewrite H1; reflexivity.
Defined.

(** ** The request pipeline *)

Ltac run :=
  unfold mbind, M_bind, mret, M_ret, get_bow, modify_bow, client_Do,
    time_Sleep, panic; simpl.

Section Pipeline.
Context {L : Lib}.

Lemma postSend_over_budget rec s :
  reloadCounter (bow s) >= maxReloads (bow s) ->
  jar.st_Dom (state (bow s)) <> None ->
  postSend rec s = Done tt s.
Proof.
  intros Hrc Hdom. unfold postSend. run.
  destruct (isContentTypeHtml _ && attr _ _); [|done].
  destruct (jar.st_Dom (state (bow s))) as [dom|]; [|done].
  destruct (decide _); [|done].
  destruct (Find_Attr _ _ _); [|done].
  destruct (time_ParseDuration _); [|done].
  destruct (decide _); [lia|done].
Qed.

Lemma postSend_no_response rec s :
  jar.st_Response (state (bow s)) = None ->
  postSend rec s = Done tt s.
Proof.
  intros H. unfold postSend. run. by rewrite H.
Qed.

Lemma postSend_no_refresh rec s dom :
  jar.st_Dom (state (bow s)) = Some dom ->
  Find_Length dom "meta[http-equiv='refresh']" <= 0 ->
  postSend rec s = Done tt s.
Proof.
  intros Hdom Hlen. unfold postSend. run. rewrite Hdom.
  destruct (isContentTypeHtml _ && attr _ _); [|done].
  destruct (decide _); [lia|done].
Qed.

Lemma httpRequestComplete_resets rec req resp err s e s' :
  httpRequestComplete rec req resp err s = Done e s' ->
  reloadCounter (bow s') = 0.
Proof.
  unfold httpRequestComplete. run.
  destruct (postSend rec _) as [[] s1| |]; [|done|done].
  intros [= _ <-]. done.
Qed.

Lemma httpRequestComplete_quiet rec req resp err s :
  postSend rec (installed req resp s) = Done tt (installed req resp s) ->
  httpRequestComplete rec req resp err s = Done err (completed req resp s).
Proof.
  intros Hpost. unfold httpRequestComplete. run.
  unfold installed in Hpost. simpl in Hpost. by rewrite Hpost.
Qed.





Lemma retriesExhausted_over_budget b :
  retriesExhausted b = true -> reloadCounter b >= maxReloads b.
Proof.
  unfold retriesExhausted. intros H.
  apply orb_true_iff in H as [H|H]; apply andb_true_iff in H as [H1 H2];
    apply bool_decide_eq_true in H1, H2; lia.
Qed.

(** C4 (amended). Every completion through [httpRequestComplete] leaves
    the reload counter at 0, and the challenge-path outcomes "budget
    exhausted" and "challenge unsolved" are such completions: a
    navigation that receives a challenge with the budget exhausted, or
    whose solve attempt fails, ends with the counter at 0.  A solve
    attempt stopped by the dead-loop guard leaves the counter as it is;
    every other solve attempt first increments it by one. *)
Theorem reloadCounter_reset_and_increment (fuel : nat) (req : Request)
    (r : Response) (s : Sys) :
  net s (sent s) req = (Some r, None) ->
  isCloudflare503 r = true ->
  (retriesExhausted (bow s) = true ->
     httpRequest (S fuel) req s
     = Done (Some (ErrMaxRetries (reloadCounter (bow s))))
         (completed req (Some r) (requested req s))
     /\ reloadCounter (bow (completed req (Some r) (requested req s))) = 0)
  /\ (retriesExhausted (bow s) = false ->
      forall s1,
        solveCF (httpRequest fuel) r (req_URL req) (requested req s) = Done false s1 ->
        httpRequest (S fuel) req s
        = httpRequestComplete (httpRequest fuel) req (Some r)
            (Some ErrUnknownAlgorithm) s1
        /\ forall e s', httpRequest (S fuel) req s = Done e s' ->
                        reloadCounter (bow s') = 0)
  /\ (forall rec s0,
        solveCF rec r (req_URL req) s0
        = (if strings.Contains (URL_String (req_URL req)) "chk_jschl"
           then Done false s0
           else solveCF_page rec r (req_URL req) (attempted s0)))
  /\ (forall rec resp err s0 e s',
        httpRequestComplete rec req resp err s0 = Done e s' ->
        reloadCounter (bow s') = 0).
Proof.
  intros Hnet Hcf.
  assert (Hstep : httpRequest (S fuel) req s
                  = handleResponse (httpRequest fuel) req (Some r) (requested req s)).
  { simpl. unfold httpRequest_body. run. by rewrite Hnet. }
  split; [|split; [|split]].
  - intros Hex. split; [|done].
    rewrite Hstep. unfold handleResponse. rewrite Hcf. run. rewrite Hex.
    apply (httpRequestComplete_quiet _ req (Some r) _ (requested req s)).
    apply postSend_over_budget; simpl; [|done].
    by apply retriesExhausted_over_budget.
  - intros Hex s1 Hsolve.
    assert (Heq : httpRequest (S fuel) req s
                  = httpRequestComplete (httpRequest fuel) req (Some r)
                      (Some ErrUnknownAlgorithm) s1).
    { rewrite Hstep. unfold handleResponse. rewrite Hcf. run. rewrite Hex.
      unfold mbind, M_bind in Hsolve. simpl in Hsolve. by rewrite Hsolve. }
    split; [done|]. intros e s'. rewrite Heq. apply httpRequestComplete_resets.
  - intros rec s0. unfold solveCF. by destruct (strings.Contains _ _).
  - intros rec resp err s0 e s'. apply httpRequestComplete_resets.
Qed.

(** C2 (amended). When the round trip fails and brings no response, the
    browser sets the placeholder document, pushes the previous state,
    installs a new state carrying the request, runs post-processing
    and resets the counter.  The new state carries no response, except
    for an error that is no timeout and whose text ends in "Service
    Unavailable": it carries a made-up 503 response.  When the failure
    is not a timeout the call returns the error of the round trip. *)
Theorem httpRequest_transport_failure (fuel : nat) (req : Request) (s : Sys)
    (e : UrlError) :
  net s (sent s) req = (None, Some e) ->
  (ue_Timeout e = false ->
   strings.HasSuffix (ue_Error e) "Service Unavailable" = false ->
   httpRequest (S fuel) req s
   = Done (Some (ErrClient e))
       (completed req None (bodied placeholder (requested req s))))
  /\ (ue_Timeout e = false ->
      strings.HasSuffix (ue_Error e) "Service Unavailable" = true ->
      Find_Length (mkDocument placeholder) "meta[http-equiv='refresh']" <= 0 ->
      httpRequest (S fuel) req s
      = Done (Some (ErrClient e))
          (completed req (Some (unavailable req))
             (bodied placeholder (requested req s))))
  /\ (ue_Timeout e = true ->
      exists err,
        httpRequest (S fuel) req s
        = Done err (completed req None (bodied placeholder (requested req s)))).
Proof.
  intros Hnet. repeat split.
  - intros Ht Hs. simpl. unfold httpRequest_body. run. rewrite Hnet, Ht, Hs.
    apply (httpRequestComplete_quiet _ req None _ (bodied placeholder (requested req s))).
    by apply postSend_no_response.
  - intros Ht Hs Hlen. simpl. unfold httpRequest_body. run. rewrite Hnet, Ht, Hs.
    apply (httpRequestComplete_quiet _ req (Some (unavailable req)) _
             (bodied placeholder (requested req s))).
    by apply (postSend_no_refresh _ _ (mkDocument placeholder)).
  - intros Ht. exists None. simpl. unfold httpRequest_body. run. rewrite Hnet, Ht.
    unfold handleResponse.
    apply (httpRequestComplete_quiet _ req None _ (bodied placeholder (requested req s))).
    by apply postSend_no_response.
Qed.




(** The branch of [httpRequest] for a charset-exempt MIME type reads
    [resp.Body], not the decompressing reader: under a deflate or br
    encoding [bow.body] is the stream as it came. *)
Lemma readResponse_exempt_reads_raw (rec : Request -> M (option Error))
    (req : Request) (r : Response) (raw : bytes) (s : Sys) :
  let contentType := Header_Get (resp_Header r) "Content-Type" in
  resp_Body r = Some raw ->
  Header_Get (resp_Header r) "Content-Encoding" = "deflate"
  \/ Header_Get (resp_Header r) "Content-Encoding" = "br" ->
  resp_StatusCode r <> 403 ->
  contentType <> "text/html; charset=GBK" ->
  contentFix (bow s) contentType = true ->
  readResponse rec req r s
  = httpRequestComplete rec req (Some r) None
      (mkSys (contentConversion contentType (URL_String (req_URL req))
                (with_body raw (bow s)))
         (net s) (sent s) (slept s)).
Proof.
  intros ct Hbody Henc Hst Hct Hfix. unfold readResponse. rewrite Hbody.
  assert (exists rd, contentReader (Header_Get (resp_Header r) "Content-Encoding") raw = inl rd
                     /\ body_after_NewReader rd raw = raw) as (rd & -> & Hrd).
  { destruct Henc as [-> | ->]; eexists; split; reflexivity. }
  run. destruct (decide (resp_StatusCode r ≠ 403)); [|done].
  fold ct. destruct (String.eqb_spec ct "text/html; charset=GBK"); [done|].
  rewrite Hfix. simpl. by rewrite Hrd.
Qed.

End Pipeline.

Section Examples.
Import scenario.
#[local] Existing Instance fixture.lib.



(** With the maximum unset and every round trip answered by the
    challenge of the current variant, one navigation sends four
    requests and sleeps three times: the fourth challenge in a row is
    not followed by a solve attempt.  The error it produces is dropped
    by the solve attempt that sent the fourth request, and the
    navigation itself returns none. *)
Lemma fourth_challenge_in_a_row (fuel : nat) :
  let run := httpRequest (4 + fuel) (get page) challenged_always in
  wire <$> final run
  = Some [("GET", "http://example.com/feed?f=1");
          ("POST", "http://example.com/feed?tk=abc");
          ("POST", "http://example.com/feed?tk=abc");
          ("POST", "http://example.com/feed?tk=abc")]
  /\ slept <$> final run = Some [4 * Second; 4 * Second; 4 * Second]
  /\ (StatusCode ∘ bow) <$> final run = Some 503
  /\ returned run = Some None
  /\ (take 3 ∘ sent) <$> final run = Some (sent three_attempts)
  /\ (fun s => sent s !! 3%nat) <$> final run = Some (Some fourth_request).
Proof. vm_compute. repeat split. Qed.

(** C4 fails as stated: with the budget exhausted the call returns the
    "maximum retries" error and leaves the counter at 0, and a
    challenge met at the solving URL itself, which is left unsolved,
    leaves it at 0 as well. *)
Lemma reloadCounter_reset_by_challenge_outcomes :
  let exhausted :=
    httpRequest 1 (get page)
      (session spent (always (Some (challenge fixture.old_page), None))) in
  let unsolved :=
    httpRequest 1 (get solving)
      (session (with_reloadCounter 1 (NewBrowser "surf"))
         (always (Some (challenge fixture.old_page), None))) in
  returned exhausted = Some (Some (ErrMaxRetries 3))
  /\ (reloadCounter ∘ bow <$> final exhausted) = Some 0
  /\ returned unsolved = Some (Some ErrUnknownAlgorithm)
  /\ (reloadCounter ∘ bow <$> final unsolved) = Some 0.
Proof. vm_compute. repeat split. Qed.

Lemma reloadCounter_reset_and_increment_witness :
  let s := session spent (always (Some (challenge fixture.old_page), None)) in
  let s1 := session (with_reloadCounter 1 (NewBrowser "surf"))
              (always (Some (challenge fixture.old_page), None)) in
  (httpRequest 1 (get page) s
   = Done (Some (ErrMaxRetries (reloadCounter (bow s))))
       (completed (get page) (Some (challenge fixture.old_page))
          (requested (get page) s))
   /\ reloadCounter (bow (completed (get page) (Some (challenge fixture.old_page))
                            (requested (get page) s))) = 0)
  /\ httpRequest 1 (get solving) s1
     = httpRequestComplete (httpRequest 0) (get solving)
         (Some (challenge fixture.old_page)) (Some ErrUnknownAlgorithm)
         (requested (get solving) s1).
Proof.
  intros s s1. split.
  - apply (reloadCounter_reset_and_increment 0 (get page)
             (challenge fixture.old_page) s); vm_compute; reflexivity.
  - apply (reloadCounter_reset_and_increment 0 (get solving)
             (challenge fixture.old_page) s1); vm_compute; reflexivity.
Defined.

(** C2 fails as stated: a timeout is answered without the error, and
    an error ending in "Service Unavailable" leaves a state that
    carries a response. *)
Lemma transport_failure_counterexample :
  let run e := httpRequest 1 (get page) (session (NewBrowser "surf") (always (None, Some e))) in
  returned (run timedout) = Some None
  /\ returned (run unavail) = Some (Some (ErrClient unavail))
  /\ (jar.st_Response ∘ state ∘ bow <$> final (run unavail))
     = Some (Some (unavailable (get page))).
Proof. vm_compute. repeat split. Qed.

Lemma httpRequest_transport_failure_witness :
  let s e := session (NewBrowser "surf") (always (None, Some e)) in
  httpRequest 1 (get page) (s refused)
  = Done (Some (ErrClient refused))
      (completed (get page) None (bodied placeholder (requested (get page) (s refused))))
  /\ httpRequest 1 (get page) (s unavail)
     = Done (Some (ErrClient unavail))
         (completed (get page) (Some (unavailable (get page)))
            (bodied placeholder (requested (get page) (s unavail))))
  /\ exists err,
       httpRequest 1 (get page) (s timedout)
       = Done err (completed (get page) None
                     (bodied placeholder (requested (get page) (s timedout)))).
Proof.
  intros s. split; [|split].
  - apply (httpRequest_transport_failure 0 (get page) (s refused) refused);
      reflexivity.
  - apply (httpRequest_transport_failure 0 (get page) (s unavail) unavail);
      [reflexivity | reflexivity | reflexivity | vm_compute; congruence].
  - apply (httpRequest_transport_failure 0 (get page) (s timedout) timedout);
      reflexivity.
Defined.



(** C1 on a response the code mishandles: the body is a deflate stream
    and its MIME type is exempt from charset handling.  The document
    is built from the compressed bytes as they came, not from what
    they decompress to. *)
Lemma charset_exempt_body_is_read_raw :
  let run := httpRequest 1 (get page) (session exempt (always (Some deflated, None))) in
  ReadAll FlateReader xml_deflated = {| dec_out := xml; dec_err := None |}
  /\ returned run = Some None
  /\ (body ∘ bow <$> final run) = Some xml_deflated
  /\ (jar.st_Dom ∘ state ∘ bow <$> final run) = Some (Some (mkDocument xml_deflated))
  /\ xml_deflated <> xml.
Proof. vm_compute. repeat split. congruence. Qed.
End Examples.

(** * Further properties *)


(** ** The history, continued *)

Lemma Push_snoc p st C :
  C > 0 ->
  (jar.Push p (jar.mkMemoryHistory st C)).1
  = jar.mkMemoryHistory ((if decide (len st >= C) then drop 1 st else st) ++ [p]) C.
Proof.
  intros HC. unfold jar.Push. simpl. rewrite decide_True by done.
  rewrite len_app. change (len [p]) with 1.
  destruct (decide (len st + 1 > C)) as [Hl|Hl]; simpl.
  - rewrite decide_True by lia. destruct st as [|x st]; [|done].
    unfold len in Hl. simpl in Hl. lia.
  - by rewrite decide_False by lia.
Qed.


(** X2. With a capacity above 0, the state just pushed is the one
    [Top] shows and [Pop] returns; and when the history held an entry
    and was below its capacity, [Pop] after [Push] leaves it as it was
    before. *)
Theorem Push_Top_Pop (p : jar.State) (h : jar.MemoryHistory) :
  jar.Capacity h > 0 ->
  jar.Top (jar.Push p h).1 = Some p
  /\ (jar.Pop (jar.Push p h).1).1 = Some p
  /\ (1 <= jar.Len h < jar.Capacity h -> (jar.Pop (jar.Push p h).1).2 = h).
Proof.
  intros Hc. destruct h as [st C]. simpl in Hc.
  rewrite Push_snoc by done. rewrite Pop_snoc.
  unfold jar.Top, jar.Len. simpl.
  rewrite decide_False
    by (rewrite len_app; unfold len; simpl; lia).
  rewrite last_snoc. repeat split.
  intros [H1 H2]. rewrite decide_False by lia.
  destruct st; [|done]. unfold len in H1. simpl in H1. lia.
Qed.

Lemma Push_Top_Pop_witness :
  let h := jar.mkMemoryHistory [jar.mkState None None None] 2 in
  jar.Top (jar.Push tour.loaded h).1 = Some tour.loaded
  /\ (jar.Pop (jar.Push tour.loaded h).1).1 = Some tour.loaded
  /\ (jar.Pop (jar.Push tour.loaded h).1).2 = h.
Proof.
  intros h.
  destruct (Push_Top_Pop tour.loaded h) as (H1 & H2 & H3); [vm_compute; reflexivity|].
  split; [exact H1|]. split; [exact H2|].
  apply H3. vm_compute. split; congruence.
Defined.

Lemma Pop_Len (h : jar.MemoryHistory) :
  jar.Len (jar.Pop h).2 = (if decide (jar.Len h > 1) then jar.Len h - 1 else jar.Len h)
  /\ jar.Capacity (jar.Pop h).2 = jar.Capacity h.
Proof.
  destruct h as [st C]. destruct (list_eq_nil_dec st) as [->|Hne]; [done|].
  destruct (exists_last Hne) as (init & x & ->).
  rewrite Pop_snoc. unfold jar.Len. simpl. rewrite len_app. change (len [x]) with 1.
  split; [|done].
  destruct init as [|y init]; simpl; [done|].
  destruct (decide _) as [H|H]; [lia|].
  unfold len in H. simpl in H. lia.
Qed.

(** X3. [Pop] never takes the last entry: however often it is called,
    a history that holds an entry keeps one, and [n] calls remove
    [n] entries or all but one. *)
Theorem Pop_keeps_one_entry (n : nat) (h : jar.MemoryHistory) :
  jar.Len (pops n h) = Z.max (Z.min 1 (jar.Len h)) (jar.Len h - Z.of_nat n).
Proof.
  assert (H0 : 0 <= jar.Len h) by (unfold jar.Len, len; lia).
  induction n as [|n IH]; [simpl; lia|].
  unfold pops in *. rewrite Nat.iter_succ.
  destruct (Pop_Len (Nat.iter n (fun h => (jar.Pop h).2) h)) as [-> _].
  rewrite IH. destruct (decide _); lia.
Qed.

(** ** Exempt content types and converters *)

Lemma mime_prefix_app m params :
  all_chars in_mime_class m = true -> stops_mime params = true ->
  mime_prefix (m +:+ params) = m.
Proof.
  intros Hm Hp. induction m as [|c m IH]; simpl in *.
  - destruct params as [|c p]; [done|]. simpl in *.
    by destruct (in_mime_class c).
  - apply andb_true_iff in Hm as [-> Hm]. by rewrite IH.
Qed.

Lemma mime_prefix_in_class s : all_chars in_mime_class (mime_prefix s) = true.
Proof.
  induction s as [|c s IH]; [done|]. simpl.
  destruct (in_mime_class c) eqn:E; [|done]. simpl. by rewrite E.
Qed.

Lemma mime_match_Some ct m : mime_match ct = Some m -> m = mime_prefix ct /\ m <> EmptyString.
Proof.
  unfold mime_match. destruct (mime_prefix ct) eqn:E; [done|].
  intros [= <-]. done.
Qed.

Lemma mime_match_app m params :
  m <> EmptyString -> all_chars in_mime_class m = true -> stops_mime params = true ->
  mime_match (m +:+ params) = Some m.
Proof.
  intros Hne Hm Hp. unfold mime_match. rewrite mime_prefix_app by done.
  by destruct m.
Qed.

Lemma mime_match_in_class ct m :
  mime_match ct = Some m -> all_chars in_mime_class m = true.
Proof. intros [-> _]%mime_match_Some. apply mime_prefix_in_class. Qed.

(** isInSlice *)
Lemma isInSlice_from_spec p str sl :
  match list_find (fun v => v = str) sl with
  | Some (i, _) => isInSlice_from p str sl = p + Z.of_nat i
  | None => isInSlice_from p str sl = -1
  end.
Proof.
  revert p. induction sl as [|v sl IH]; intros p; [done|].
  simpl. destruct (String.eqb_spec v str) as [->|Hne].
  - rewrite decide_True by done. simpl. lia.
  - rewrite decide_False by done. specialize (IH (p + 1)).
    destruct (list_find _ sl) as [[i x]|]; simpl; [lia|done].
Qed.

Lemma isInSlice_absent (str : string) (sl : list string) :
  str ∉ sl -> isInSlice str sl = -1.
Proof.
  intros Hn. pose proof (isInSlice_from_spec 0 str sl) as H. unfold isInSlice.
  destruct (list_find _ sl) as [[i x]|] eqn:E; [|done].
  apply list_find_Some in E as (Hi & -> & _). exfalso. apply Hn.
  by eapply list_elem_of_lookup_2.
Qed.

(** X4. [isInSlice] answers -1 exactly when the string is not in the
    slice; for a string in the slice it answers the position of its
    first occurrence. *)
Theorem isInSlice_first (str : string) (sl : list string) :
  (isInSlice str sl = -1 <-> str ∉ sl)
  /\ (str ∈ sl ->
      exists i : nat,
        isInSlice str sl = Z.of_nat i
        /\ sl !! i = Some str
        /\ forall j, (j < i)%nat -> sl !! j <> Some str).
Proof.
  pose proof (isInSlice_from_spec 0 str sl) as H. unfold isInSlice.
  destruct (list_find _ sl) as [[i x]|] eqn:E.
  - apply list_find_Some in E as (Hi & -> & Hfirst). split.
    + split; [lia|]. intros Hn. exfalso. apply Hn. by eapply list_elem_of_lookup_2.
    + intros _. exists i. split; [rewrite H; lia|]. split; [done|].
      intros j Hj Hjs. by eapply Hfirst.
  - apply list_find_None in E. split.
    + split; [|done]. intros _ Hin. rewrite Forall_forall in E. by eapply E.
    + intros Hin. exfalso. rewrite Forall_forall in E. by eapply E.
Qed.

Lemma with_checker_id b : with_checker (pluggableContentTypeChecker b) b = b.
Proof. by destruct b. Qed.

Lemma SetContentFixer_checker ct b :
  pluggableContentTypeChecker (SetContentFixer ct b) = pluggableContentTypeChecker b ++ [ct].
Proof. done. Qed.

Lemma ClearContentFixer_split ct b l1 l2 :
  pluggableContentTypeChecker b = l1 ++ ct :: l2 -> ct ∉ l1 ->
  ClearContentFixer ct b = with_checker (l1 ++ l2) b.
Proof.
  intros Hl Hn. unfold ClearContentFixer.
  pose proof (isInSlice_from_spec 0 ct (pluggableContentTypeChecker b)) as H.
  fold (isInSlice ct (pluggableContentTypeChecker b)) in H.
  destruct (list_find _ _) as [[i x]|] eqn:E.
  - apply list_find_Some in E as (Hi & -> & Hfirst).
    assert (i = length l1) as ->.
    { rewrite Hl in Hi, Hfirst.
      destruct (Nat.lt_trichotomy i (length l1)) as [Hlt|[->|Hgt]]; [|done|].
      - exfalso. apply Hn. rewrite lookup_app_l in Hi by done.
        by eapply list_elem_of_lookup_2.
      - exfalso. apply (Hfirst (length l1) ct); [|done|done].
        by rewrite list_lookup_middle. }
    rewrite H. cbv zeta. rewrite decide_True by lia. rewrite Hl. f_equal.
    replace (Z.to_nat (0 + Z.of_nat (length l1))) with (length l1) by lia.
    replace (Z.to_nat (0 + Z.of_nat (length l1) + 1)) with (length (l1 ++ [ct])).
    2:{ rewrite length_app. simpl. lia. }
    rewrite take_app_length. f_equal.
    change (ct :: l2) with ([ct] ++ l2). rewrite app_assoc.
    by rewrite drop_app_length.
  - apply list_find_None in E. rewrite Hl in E. exfalso.
    rewrite Forall_forall in E. apply (E ct); [|done].
    apply elem_of_app. right. left.
Qed.

Lemma ClearContentFixer_absent ct b :
  ct ∉ pluggableContentTypeChecker b -> ClearContentFixer ct b = b.
Proof.
  intros Hn. unfold ClearContentFixer.
  rewrite (isInSlice_absent _ _ Hn). by rewrite decide_False by lia.
Qed.

Lemma ClearContentFixer_SetContentFixer ct b :
  ct ∉ pluggableContentTypeChecker b ->
  ClearContentFixer ct (SetContentFixer ct b) = b.
Proof.
  intros Hn. rewrite (ClearContentFixer_split _ _ (pluggableContentTypeChecker b) []); [|done|done].
  rewrite app_nil_r. unfold SetContentFixer, with_checker. simpl. by destruct b.
Qed.

(** X5. [ClearContentFixer] removes the first registration of the
    content type and no other: a type that is not registered leaves the
    list as it is, and a type registered twice is still exempt after
    one call. *)
Theorem ClearContentFixer_first (ct : string) (b : Browser) :
  (ct ∉ pluggableContentTypeChecker b -> ClearContentFixer ct b = b)
  /\ (forall l1 l2, pluggableContentTypeChecker b = l1 ++ ct :: l2 -> ct ∉ l1 ->
        ClearContentFixer ct b = with_checker (l1 ++ l2) b)
  /\ (forall ct', ct ∈ pluggableContentTypeChecker b ->
        contentFix (ClearContentFixer ct (SetContentFixer ct b)) ct' =
        contentFix b ct').
Proof.
  split; [apply ClearContentFixer_absent|]. split; [apply ClearContentFixer_split|].
  intros ct' Hin. apply list_elem_of_split_l in Hin as (l1 & l2 & Hl & Hn).
  rewrite (ClearContentFixer_split ct (SetContentFixer ct b) l1 (l2 ++ [ct])); [|by rewrite SetContentFixer_checker, Hl, <- app_assoc|done].
  unfold contentFix. destruct (mime_match ct'); [|done]. simpl.
  apply bool_decide_ext. rewrite Hl, !elem_of_app, !elem_of_cons, elem_of_nil.
  tauto.
Qed.


(** X6. [contentFix] looks at the MIME type at the head of the content
    type and not at what follows it: a content type made of a
    registered type and parameters is exempt, and it is exempt no more
    once the only registration is cleared. *)
Theorem contentFix_ignores_parameters (b : Browser) (m params : string) :
  m <> EmptyString -> all_chars in_mime_class m = true -> stops_mime params = true ->
  contentFix b (m +:+ params) = bool_decide (m ∈ pluggableContentTypeChecker b)
  /\ contentFix (SetContentFixer m b) (m +:+ params) = true
  /\ (m ∉ pluggableContentTypeChecker b ->
      contentFix (ClearContentFixer m (SetContentFixer m b)) (m +:+ params) = false).
Proof.
  intros Hne Hm Hp. unfold contentFix. rewrite mime_match_app by done.
  split; [done|]. split.
  - rewrite SetContentFixer_checker. apply bool_decide_eq_true.
    apply elem_of_app. right. left.
  - intros Hn. rewrite ClearContentFixer_SetContentFixer by done.
    by apply bool_decide_eq_false.
Qed.

(** X7. A content type with a byte outside the class of the pattern (a
    digit, a space, a semicolon) is never what the pattern matches:
    registering it as exempt, or a converter under it, changes the
    outcome for no response. *)
Theorem registration_outside_class_is_dead (name : string) (f : Converter)
    (b : Browser) (ct url : string) :
  all_chars in_mime_class name = false ->
  contentFix (SetContentFixer name b) ct = contentFix b ct
  /\ body (contentConversion ct url (SetConverter name f b))
     = body (contentConversion ct url b)
  /\ forall bb, contentAsyncConversion ct url bb (SetConverter name f b)
     = contentAsyncConversion ct url bb b.
Proof.
  intros Hname.
  assert (Hm : forall m, mime_match ct = Some m -> m <> name).
  { intros m Hmm ->. apply mime_match_in_class in Hmm. congruence. }
  unfold contentFix, contentConversion, contentAsyncConversion.
  destruct (mime_match ct) as [m|] eqn:E; [|done].
  specialize (Hm m eq_refl). split; [|split].
  - rewrite SetContentFixer_checker. apply bool_decide_ext.
    rewrite elem_of_app, list_elem_of_singleton. split; [|tauto].
    by intros [?|?].
  - assert (Hl : pluggable_converters (SetConverter name f b) !! m
                 = pluggable_converters b !! m)
      by (simpl; by rewrite lookup_insert_ne).
    unfold Converter in *. rewrite Hl. clear Hl. destruct (_ !! m) as [[g|]|]; simpl. all: reflexivity.
  - intros bb. unfold SetConverter. simpl. by rewrite lookup_insert_ne by done.
Qed.

Lemma with_body_id b : with_body (body b) b = b.
Proof. by destruct b. Qed.

Lemma contentConversion_async ct url b :
  contentConversion ct url b = with_body (contentAsyncConversion ct url (body b) b) b.
Proof.
  unfold contentConversion, contentAsyncConversion.
  destruct (mime_match ct) as [m|]; [|by rewrite with_body_id].
  destruct (_ !! m) as [[g|]|]; by rewrite ?with_body_id.
Qed.

(** X8. A converter registered under a MIME type is applied to the
    body of every content type that starts with this type, with the
    full content type and the URL as arguments; once cleared the body
    is left as read.  [contentAsyncConversion] does the same on the
    bytes it is given. *)
Theorem converter_register_clear (b : Browser) (m params url : string)
    (f : Converter) :
  m <> EmptyString -> all_chars in_mime_class m = true -> stops_mime params = true ->
  let ct := m +:+ params in
  contentConversion ct url (SetConverter m f b)
  = with_body (f (body b) ct url) (SetConverter m f b)
  /\ contentConversion ct url (ClearConverter m (SetConverter m f b))
     = ClearConverter m (SetConverter m f b)
  /\ forall bb, contentAsyncConversion ct url bb (SetConverter m f b) = f bb ct url
  /\ contentAsyncConversion ct url bb (ClearConverter m b) = bb.
Proof.
  intros Hne Hm Hp ct.
  assert (Hmm : mime_match ct = Some m) by by apply mime_match_app.
  unfold contentConversion, contentAsyncConversion. rewrite Hmm.
  assert (Hs : forall b', pluggable_converters (SetConverter m f b') !! m = Some (Some f))
    by (intros b'; simpl; apply lookup_insert_eq).
  assert (Hc : forall b', pluggable_converters (ClearConverter m b') !! m = Some None)
    by (intros b'; simpl; apply lookup_insert_eq).
  unfold Converter in *. rewrite !Hs, !Hc. done.
Qed.

Lemma ClearContentFixer_first_witness :
  let b := SetContentFixer "text/csv"
             (SetContentFixer "application/xml"
                (SetContentFixer "text/csv" (NewBrowser "surf"))) in
  pluggableContentTypeChecker (ClearContentFixer "text/csv" b)
  = ["application/xml"; "text/csv"]
  /\ ClearContentFixer "image/png" b = b
  /\ contentFix (ClearContentFixer "text/csv" (SetContentFixer "text/csv" b))
       "text/csv; charset=utf-8" = true.
Proof.
  intros b.
  destruct (ClearContentFixer_first "text/csv" b) as (_ & H2 & H3).
  destruct (ClearContentFixer_first "image/png" b) as (H1 & _ & _).
  split; [|split].
  - by rewrite (H2 [] ["application/xml"; "text/csv"] eq_refl
                  ltac:(apply not_elem_of_nil)).
  - apply H1. apply (bool_decide_unpack _). vm_compute. exact I.
  - rewrite H3; [vm_compute; reflexivity|].
    apply (bool_decide_unpack _). vm_compute. exact I.
Defined.

Lemma contentFix_ignores_parameters_witness :
  contentFix (SetContentFixer "application/xml" (NewBrowser "surf"))
    "application/xml; charset=utf-8" = true
  /\ contentFix
       (ClearContentFixer "application/xml"
          (SetContentFixer "application/xml" (NewBrowser "surf")))
       "application/xml; charset=utf-8" = false.
Proof.
  destruct (contentFix_ignores_parameters (NewBrowser "surf") "application/xml"
              "; charset=utf-8") as (_ & H2 & H3);
    [done | vm_compute; reflexivity | vm_compute; reflexivity |].
  split; [exact H2|]. apply H3. apply not_elem_of_nil.
Defined.

Lemma registration_outside_class_is_dead_witness :
  let f : Converter := fun _ _ _ => bytes_of "converted" in
  let b := with_body (bytes_of "raw") (NewBrowser "surf") in
  contentFix (SetContentFixer "audio/mp3" b) "audio/mp3" = false
  /\ body (contentConversion "audio/mp3" "http://example.com/a.mp3"
             (SetConverter "audio/mp3" f b)) = bytes_of "raw".
Proof.
  intros f b.
  destruct (registration_outside_class_is_dead "audio/mp3" f b "audio/mp3"
              "http://example.com/a.mp3") as (H1 & H2 & _);
    [vm_compute; reflexivity|].
  split; [by rewrite H1|by rewrite H2].
Defined.

Lemma converter_register_clear_witness :
  let f : Converter := fun bb ct _ => bb ++ bytes_of ct in
  let b := with_body (bytes_of "{}") (NewBrowser "surf") in
  body (contentConversion "application/json; charset=utf-8" "http://example.com/a"
          (SetConverter "application/json" f b))
  = bytes_of "{}application/json; charset=utf-8"
  /\ body (contentConversion "application/json; charset=utf-8" "http://example.com/a"
             (ClearConverter "application/json" (SetConverter "application/json" f b)))
     = bytes_of "{}".
Proof.
  intros f b.
  destruct (converter_register_clear b "application/json" "; charset=utf-8"
              "http://example.com/a" f) as (H1 & H2 & _);
    [done | vm_compute; reflexivity | vm_compute; reflexivity |].
  change ("application/json" +:+ "; charset=utf-8")
    with "application/json; charset=utf-8" in H1, H2.
  split; [by rewrite H1|by rewrite H2].
Defined.

(** ** Request headers *)

Lemma validHeaderFieldByte_lower c :
  validHeaderFieldByte (lower c) = validHeaderFieldByte c.
Proof. destruct c as [[] [] [] [] [] [] [] []]; vm_compute; reflexivity. Qed.

Lemma canonical_byte_lower (upper : bool) c :
  (if upper && is_lower (lower c)
   then Ascii.ascii_of_N (Ascii.N_of_ascii (lower c) - 32)
   else if negb upper && is_upper (lower c)
   then Ascii.ascii_of_N (Ascii.N_of_ascii (lower c) + 32)
   else lower c)
  = (if upper && is_lower c
     then Ascii.ascii_of_N (Ascii.N_of_ascii c - 32)
     else if negb upper && is_upper c
     then Ascii.ascii_of_N (Ascii.N_of_ascii c + 32)
     else c).
Proof.
  destruct upper; destruct c as [[] [] [] [] [] [] [] []]; vm_compute; reflexivity.
Qed.

Lemma all_chars_ToLower s :
  all_chars validHeaderFieldByte (ToLower s) = all_chars validHeaderFieldByte s.
Proof.
  induction s as [|c s IH]; [done|]. simpl.
  by rewrite validHeaderFieldByte_lower, IH.
Qed.

Lemma canonicalize_ToLower upper s :
  canonicalize upper (ToLower s) = canonicalize upper s.
Proof.
  revert upper. induction s as [|c s IH]; intros upper; [done|].
  cbn [ToLower canonicalize]. cbv zeta.
  rewrite canonical_byte_lower. by rewrite IH.
Qed.

Lemma CanonicalMIMEHeaderKey_ToLower s s' :
  all_chars validHeaderFieldByte s = true -> ToLower s' = ToLower s ->
  CanonicalMIMEHeaderKey s' = CanonicalMIMEHeaderKey s.
Proof.
  intros Hs Heq. unfold CanonicalMIMEHeaderKey.
  rewrite <- (all_chars_ToLower s'), Heq, all_chars_ToLower, Hs.
  by rewrite <- (canonicalize_ToLower true s'), Heq, canonicalize_ToLower.
Qed.

Lemma Header_Get_Set k k' v h :
  Header_Get (Header_Set k v h) k'
  = if decide (CanonicalMIMEHeaderKey k = CanonicalMIMEHeaderKey k')
    then v else Header_Get h k'.
Proof.
  unfold Header_Get, Header_Set. destruct (decide _) as [->|Hne].
  - by rewrite lookup_insert_eq.
  - by rewrite lookup_insert_ne.
Qed.

Lemma Header_Get_Del k k' h :
  Header_Get (Header_Del k h) k'
  = if decide (CanonicalMIMEHeaderKey k = CanonicalMIMEHeaderKey k')
    then EmptyString else Header_Get h k'.
Proof.
  unfold Header_Get, Header_Del. destruct (decide _) as [->|Hne].
  - by rewrite lookup_delete_eq.
  - by rewrite lookup_delete_ne.
Qed.

(** X9. The request headers of the session are looked up by name
    without regard to case, for names made of token bytes: what
    [AddRequestHeader] sets under one spelling, [GetRequestHeader]
    finds and [DelRequestHeader] removes under any other; and a
    header set or deleted leaves the headers of other names alone. *)
Theorem request_headers_ignore_case (b : Browser) (name name' value : string) :
  all_chars validHeaderFieldByte name = true ->
  ToLower name' = ToLower name ->
  GetRequestHeader name' (AddRequestHeader name value b) = value
  /\ GetRequestHeader name' (DelRequestHeader name (AddRequestHeader name' value b))
     = EmptyString
  /\ AddRequestHeader name' value b = AddRequestHeader name value b
  /\ forall k, CanonicalMIMEHeaderKey k <> CanonicalMIMEHeaderKey name ->
       GetRequestHeader k (AddRequestHeader name value b) = GetRequestHeader k b
       /\ GetRequestHeader k (DelRequestHeader name b) = GetRequestHeader k b.
Proof.
  intros Hname Hcase.
  pose proof (CanonicalMIMEHeaderKey_ToLower name name' Hname Hcase) as Hk.
  unfold GetRequestHeader, AddRequestHeader, DelRequestHeader. simpl.
  rewrite Header_Get_Set, Header_Get_Del, Hk.
  rewrite !decide_True by done. repeat split.
  - unfold Header_Set. by rewrite Hk.
  - rewrite Header_Get_Set. by rewrite decide_False by done.
  - rewrite Header_Get_Del. by rewrite decide_False by done.
Qed.

Lemma request_headers_ignore_case_witness :
  let b := AddRequestHeader "X-Api-Key" "k0" (NewBrowser "surf") in
  GetRequestHeader "x-api-key" (AddRequestHeader "X-API-KEY" "k1" b) = "k1"
  /\ GetRequestHeader "x-api-key"
       (DelRequestHeader "X-API-KEY" (AddRequestHeader "x-api-key" "k1" b))
     = EmptyString.
Proof.
  intros b.
  destruct (request_headers_ignore_case b "X-API-KEY" "x-api-key" "k1")
    as (H1 & H2 & _); [vm_compute; reflexivity|vm_compute; reflexivity|].
  by split.
Defined.

(** X10. [buildRequest] does not touch the session.  The request it
    builds carries the session's headers, except that User-Agent is the
    browser's user agent whatever header of that name was set, and
    that Referer is the referring URL when one is given and the
    SendReferer attribute is on. *)
Theorem buildRequest_headers {L : Lib} (method u : string) (ref : option URL)
    (body : option bytes) (s : Sys) :
  match http_NewRequest method u body with
  | inr e => buildRequest method u ref body s = Done (inr e) s
  | inl req0 =>
      exists req,
        buildRequest method u ref body s = Done (inl req) s
        /\ req_Method req = method /\ req_URL req = req_URL req0
        /\ req_Body req = body
        /\ Header_Get (req_Header req) "User-Agent" = userAgent (bow s)
        /\ Header_Get (req_Header req) "Referer"
           = match ref with
             | Some r => if attr (bow s) SendReferer then URL_String r
                         else GetRequestHeader "Referer" (bow s)
             | None => GetRequestHeader "Referer" (bow s)
             end
        /\ forall k, CanonicalMIMEHeaderKey k <> "User-Agent" ->
                     CanonicalMIMEHeaderKey k <> "Referer" ->
                     Header_Get (req_Header req) k = GetRequestHeader k (bow s)
  end.
Proof.
  unfold buildRequest, http_NewRequest.
  destruct (url_Parse u) as [ur|e]; [|done].
  eexists. split; [reflexivity|]. simpl. repeat split.
  - destruct ref as [r|]; [destruct (attr _ _)|]; rewrite ?Header_Get_Set; done.
  - destruct ref as [r|]; [destruct (attr _ _)|]; rewrite ?Header_Get_Set; done.
  - intros k H1 H2. unfold GetRequestHeader.
    destruct ref as [r|]; [destruct (attr _ _)|]; rewrite ?Header_Get_Set;
      rewrite ?decide_False; done.
Qed.

(** ** What a navigation leaves alone *)

Lemma settled_refl b : settled b b.
Proof. by split. Qed.

Lemma settled_trans b1 b2 b3 : settled b1 b2 -> settled b2 b3 -> settled b1 b3.
Proof.
  intros [? ? ? ? ? ? HC Hd Hb Hu] [? ? ? ? ? ? HC' Hd' Hb' Hu'].
  split; try congruence.
  - intros H. rewrite Hd' by lia. auto.
  - auto.
  - auto.
Qed.

Lemma follows_refl s : follows s s.
Proof. split; [apply settled_refl|done..]. Qed.

Lemma follows_trans s1 s2 s3 : follows s1 s2 -> follows s2 s3 -> follows s1 s3.
Proof.
  intros [] []. split.
  - by eapply settled_trans.
  - congruence.
  - by etrans.
  - by etrans.
Qed.

Lemma keeps_ret {A} (a : A) : keeps (mret a).
Proof. intros s a' s' [= _ <-]. apply follows_refl. Qed.

Lemma keeps_bind {A B} (m : M A) (f : A -> M B) :
  keeps m -> (forall a, keeps (f a)) -> keeps (m ≫= f).
Proof.
  intros Hm Hf s b s'. unfold mbind, M_bind.
  destruct (m s) as [a s1| |] eqn:E; [|done|done].
  intros H. eapply follows_trans; [by eapply Hm|by eapply Hf].
Qed.

Lemma keeps_panic {A} : keeps (@panic A).
Proof. by intros s a s'. Qed.

Lemma keeps_get : keeps get_bow.
Proof. intros s a s' [= _ <-]. apply follows_refl. Qed.

Lemma keeps_modify f : (forall b, settled b (f b)) -> keeps (modify_bow f).
Proof. intros Hf s a s' [= _ <-]. split; simpl; [apply Hf|done..]. Qed.

Lemma keeps_Do req : keeps (client_Do req).
Proof.
  intros s a s' [= _ <-]. split; simpl; [apply settled_refl|done| |done].
  by apply prefix_app_r.
Qed.

Lemma keeps_Sleep d : keeps (time_Sleep d).
Proof.
  intros s a s' [= _ <-]. split; simpl; [apply settled_refl|done|done|].
  by apply prefix_app_r.
Qed.

Lemma settled_Push p b : settled b (with_history (jar.Push p (history b)).1 b).
Proof.
  split; try done; simpl; unfold jar.Push; simpl.
  - destruct (decide _); [|done]. by destruct (decide _).
  - intros H. destruct (decide _); [lia|done].
  - unfold jar.Len. intros H. destruct (decide _) as [Hc|Hc]; [|done].
    destruct (decide _) as [Hl|Hl]; simpl; [|lia].
    unfold len in *. rewrite length_drop, length_app in *. simpl in *. lia.
Qed.

Lemma settled_contentConversion ct url b : settled b (contentConversion ct url b).
Proof. unfold contentConversion. repeat case_match; by split. Qed.

Lemma settled_AddRequestHeader name value b :
  (CanonicalMIMEHeaderKey name = "Upgrade-Insecure-Requests" -> value = "1") ->
  settled b (AddRequestHeader name value b).
Proof.
  intros Hv. split; try done. unfold GetRequestHeader, AddRequestHeader. simpl.
  rewrite Header_Get_Set. intros H. destruct (decide _) as [E|E]; [auto|done].
Qed.

Lemma settled_DelRequestHeader name b :
  CanonicalMIMEHeaderKey name <> "Upgrade-Insecure-Requests" ->
  settled b (DelRequestHeader name b).
Proof.
  intros Hv. split; try done. unfold GetRequestHeader, DelRequestHeader. simpl.
  rewrite Header_Get_Del. intros H. by rewrite decide_False.
Qed.

Lemma settled_answer_headers_old rurl b : settled b (answer_headers_old rurl b).
Proof.
  unfold answer_headers_old.
  repeat (eapply settled_trans;
          [|first [ apply settled_AddRequestHeader; vm_compute; congruence
                  | apply settled_DelRequestHeader; vm_compute; congruence ]]).
  apply settled_refl.
Qed.

Ltac settle :=
  intros;
  first [ apply settled_refl | apply settled_Push
        | apply settled_contentConversion
        | apply settled_answer_headers_old
        | apply settled_AddRequestHeader; vm_compute; congruence
        | by split ].

Create HintDb keeps.

Ltac keep :=
  repeat first
    [ solve [auto 2 with keeps nocore] | apply keeps_ret | apply keeps_panic | apply keeps_get | apply keeps_Do
    | apply keeps_Sleep | (apply keeps_modify; settle)
    | (apply keeps_bind; [|intros ?])
    | assumption
    | match goal with
      | |- keeps (match ?x with _ => _ end) => destruct x
      | |- keeps (if ?x then _ else _) => destruct x
      | |- keeps (let '(_, _) := ?x in _) => destruct x
      end ].

Section Frame.
Context {L : Lib}.
Variable rec : Request -> M (option Error).
Hypothesis Hrec : forall req, keeps (rec req).
#[local] Hint Resolve Hrec : keeps.

Lemma keeps_buildRequest m u ref body : keeps (buildRequest m u ref body).
Proof. unfold buildRequest. keep. Qed.

#[local] Hint Resolve keeps_buildRequest : keeps.

Lemma keeps_Open u : keeps (Open rec u).
Proof.
  unfold Open, httpGET. keep.
Qed.

Lemma keeps_PostForm u q ref : keeps (PostForm rec u q ref).
Proof.
  unfold PostForm, Post, httpPOST. keep.
Qed.

#[local] Hint Resolve keeps_Open keeps_PostForm : keeps.

Lemma keeps_postSend : keeps (postSend rec).
Proof.
  unfold postSend, Reload. keep.
Qed.

#[local] Hint Resolve keeps_postSend : keeps.

Lemma keeps_httpRequestComplete req resp err : keeps (httpRequestComplete rec req resp err).
Proof.
  unfold httpRequestComplete. apply keeps_bind; [keep|]. intros b.
  destruct (NewDocumentFromReader (body b)); keep.
Qed.

#[local] Hint Resolve keeps_httpRequestComplete : keeps.

Lemma keeps_solveCF r rurl : keeps (solveCF rec r rurl).
Proof.
  unfold solveCF, solveCF_page, solveCF_new, solveCF_old. 
  keep.
Qed.

#[local] Hint Resolve keeps_solveCF : keeps.

Lemma keeps_httpRequest_body req : keeps (httpRequest_body rec req).
Proof.
  unfold httpRequest_body, handleResponse, readResponse.
  keep.
Qed.
End Frame.

Lemma httpRequest_keeps {L : Lib} fuel req : keeps (httpRequest fuel req).
Proof.
  revert req. induction fuel as [|fuel IH]; intros req; [by intros s a s'|].
  simpl. by apply keeps_httpRequest_body.
Qed.

Section FrameEntries.
Context {L : Lib}.
Variable fuel : nat.

Lemma keeps_Post u ct body ref : keeps (Post (httpRequest fuel) u ct body ref).
Proof.
  pose proof (httpRequest_keeps fuel) as Hrec. pose proof keeps_buildRequest.
  unfold Post, httpPOST. keep.
Qed.

Lemma keeps_Head u : keeps (Head (httpRequest fuel) u).
Proof.
  pose proof (httpRequest_keeps fuel) as Hrec. pose proof keeps_buildRequest.
  unfold Head, httpHEAD. keep.
Qed.

Lemma keeps_OpenForm u data : keeps (OpenForm (httpRequest fuel) u data).
Proof.
  pose proof (httpRequest_keeps fuel) as Hrec.
  unfold OpenForm. destruct (url_Parse u); [|keep].
  by apply keeps_Open.
Qed.

Lemma keeps_Reload : keeps (Reload (httpRequest fuel)).
Proof.
  pose proof (httpRequest_keeps fuel) as Hrec. unfold Reload. keep.
Qed.

End FrameEntries.

(** X11. Whichever way a navigation is started (a request, Open, Head,
    OpenForm, Post, PostForm or Reload) and whatever it meets on the
    way (challenges, meta refreshes, errors), when it returns the
    session has the user agent, attributes, converters, exempt content
    types, maximum of reloads, async store and history capacity it
    started with; the requests sent and the sleeps taken before are
    still the first ones on record. *)
Theorem navigation_keeps_settings {L : Lib} (fuel : nat) (m : M (option Error))
    (s s' : Sys) (a : option Error) :
  let rec := httpRequest fuel in
  (exists req, m = rec req) \/ (exists u, m = Open rec u) \/
  (exists u, m = Head rec u) \/ (exists u data, m = OpenForm rec u data) \/
  (exists u ct body ref, m = Post rec u ct body ref) \/
  (exists u data ref, m = PostForm rec u data ref) \/ m = Reload rec ->
  m s = Done a s' ->
  userAgent (bow s') = userAgent (bow s)
  /\ attributes (bow s') = attributes (bow s)
  /\ pluggable_converters (bow s') = pluggable_converters (bow s)
  /\ pluggableContentTypeChecker (bow s') = pluggableContentTypeChecker (bow s)
  /\ maxReloads (bow s') = maxReloads (bow s)
  /\ astore (bow s') = astore (bow s)
  /\ jar.Capacity (history (bow s')) = jar.Capacity (history (bow s))
  /\ net s' = net s
  /\ sent s `prefix_of` sent s'
  /\ slept s `prefix_of` slept s'.
Proof.
  intros rec Hm Hrun.
  assert (Hk : keeps m).
  { pose proof (httpRequest_keeps fuel) as Hrec.
    destruct Hm as [[req ->]|[[u ->]|[[u ->]|[(u & data & ->)|
      [(u & ct & body & ref & ->)|[(u & data & ref & ->)| ->]]]]]].
    - apply Hrec.
    - by apply keeps_Open.
    - apply keeps_Head.
    - apply keeps_OpenForm.
    - apply keeps_Post.
    - by apply keeps_PostForm.
    - apply keeps_Reload. }
  destruct (Hk s a s' Hrun) as [[? ? ? ? ? ? ? _ _ _] ? ? ?]. repeat split; done.
Qed.

Lemma navigation_keeps_settings_witness :
  let s := scenario.session (SetContentFixer "application/xml" (NewBrowser "surf"))
             scenario.challenged_once in
  let run := httpRequest (L := fixture.lib) 2 (scenario.get scenario.page) s in
  let s' := default s (final run) in
  run = Done None s'
  /\ userAgent (bow s') = "surf"
  /\ pluggableContentTypeChecker (bow s') = ["application/xml"]
  /\ sent s `prefix_of` sent s'.
Proof.
  intros s run s'.
  assert (Hrun : run = Done None s') by (vm_compute; reflexivity).
  split; [exact Hrun|].
  destruct (navigation_keeps_settings (L := fixture.lib) 2
              (httpRequest (L := fixture.lib) 2 (scenario.get scenario.page))
              s s' None)
    as (H1 & _ & _ & H4 & _ & _ & _ & _ & H9 & _).
  - left. by exists (scenario.get scenario.page).
  - exact Hrun.
  - split; [exact H1|]. split; [exact H4|exact H9].
Defined.

(** X12. A history that is within its capacity when a navigation starts
    is within it when the navigation returns, however many states were
    pushed on the way. *)
Theorem history_stays_within_capacity {L : Lib} (fuel : nat) (req : Request)
    (s s' : Sys) (a : option Error) :
  jar.Len (history (bow s)) <= jar.Capacity (history (bow s)) ->
  httpRequest fuel req s = Done a s' ->
  jar.Len (history (bow s')) <= jar.Capacity (history (bow s')).
Proof.
  intros Hlen Hrun.
  destruct (httpRequest_keeps fuel req s a s' Hrun)
    as [[_ _ _ _ _ _ _ _ Hb _] _ _ _]. auto.
Qed.

Lemma history_stays_within_capacity_witness :
  let run := httpRequest (L := fixture.lib) 1 (tour.get tour.home) tour.recording in
  let s' := default tour.recording (final run) in
  jar.Len (history (bow s')) <= jar.Capacity (history (bow s')).
Proof.
  intros run s'.
  apply (history_stays_within_capacity (L := fixture.lib) 1 (tour.get tour.home)
           tour.recording s' (Some (ErrClient tour.refused))).
  - vm_compute. congruence.
  - vm_compute. reflexivity.
Defined.

Lemma Back_snoc b init x C :
  history b = jar.mkMemoryHistory (init ++ [x]) C -> init <> [] ->
  Back b = (true, with_state x (with_history (jar.mkMemoryHistory init C) b)).
Proof.
  intros Hh Hne. unfold Back. rewrite Hh, Pop_snoc. unfold jar.Len. simpl.
  rewrite len_app. change (len [x]) with 1.
  destruct init as [|y init]; [done|].
  rewrite decide_True; [done|]. unfold len. simpl. lia.
Qed.

Lemma Back_single b : jar.Len (history b) <= 1 -> Back b = (false, b).
Proof. intros H. unfold Back. by rewrite decide_False by lia. Qed.

(** X13. With a history of capacity 0 or less, as [NewMemoryHistory]
    makes it, nothing is recorded: after any navigation [Back] finds
    what it found before, and on a history of at most one state it
    answers false and leaves the browser as it is. *)
Theorem Back_with_history_disabled {L : Lib} (fuel : nat) (req : Request)
    (s s' : Sys) (a : option Error) :
  jar.Capacity (history (bow s)) <= 0 ->
  httpRequest fuel req s = Done a s' ->
  jar.states (history (bow s')) = jar.states (history (bow s))
  /\ (jar.Len (history (bow s)) <= 1 -> Back (bow s') = (false, bow s')).
Proof.
  intros Hcap Hrun.
  destruct (httpRequest_keeps fuel req s a s' Hrun)
    as [[_ _ _ _ _ _ _ Hd _ _] _ _ _].
  split; [auto|]. intros Hlen. apply Back_single.
  unfold jar.Len in *. by rewrite Hd by done.
Qed.

Lemma Back_with_history_disabled_witness :
  let run := httpRequest (L := fixture.lib) 1 (tour.get tour.home) tour.offline in
  let s' := default tour.offline (final run) in
  jar.states (history (bow s')) = []
  /\ Back (bow s') = (false, bow s').
Proof.
  intros run s'.
  destruct (Back_with_history_disabled (L := fixture.lib) 1 (tour.get tour.home)
              tour.offline s' (Some (ErrClient tour.refused))) as [H1 H2].
  - vm_compute. congruence.
  - vm_compute. reflexivity.
  - split; [exact H1|]. apply H2. vm_compute. congruence.
Defined.

(** X14. [Back] after a navigation that completed without a reload.
    If the history was empty, the state pushed is the only one and
    [Back] answers false.  If it held a state and was below its
    capacity, [Back] puts the state and the history back as they were
    before the navigation; the body it leaves is that of the page
    navigated to. *)
Theorem Back_after_completed {L : Lib} (rec : Request -> M (option Error))
    (req : Request) (resp : option Response) (err : option Error) (s : Sys) :
  postSend rec (installed req resp s) = Done tt (installed req resp s) ->
  jar.Capacity (history (bow s)) > 0 ->
  exists s',
    httpRequestComplete rec req resp err s = Done err s'
    /\ (jar.Len (history (bow s)) = 0 -> Back (bow s') = (false, bow s'))
    /\ (1 <= jar.Len (history (bow s)) < jar.Capacity (history (bow s)) ->
        (Back (bow s')).1 = true
        /\ state (Back (bow s')).2 = state (bow s)
        /\ history (Back (bow s')).2 = history (bow s)
        /\ body (Back (bow s')).2 = body (bow s)).
Proof.
  intros Hquiet Hcap. exists (completed req resp s).
  split; [by apply httpRequestComplete_quiet|].
  set (b' := bow (completed req resp s)).
  assert (Hb : history b' = (jar.Push (state (bow s)) (history (bow s))).1) by done.
  assert (Hbody : body b' = body (bow s)) by done.
  clearbody b'. destruct (history (bow s)) as [st C]. simpl in Hcap.
  rewrite Push_snoc in Hb by done. unfold jar.Len. simpl. split.
  - intros H0. apply Back_single. rewrite Hb. unfold jar.Len. simpl.
    rewrite len_app. rewrite decide_False by lia. unfold len in *. simpl. lia.
  - intros [H1 H2]. rewrite decide_False in Hb by lia.
    rewrite (Back_snoc b' st (state (bow s)) C Hb).
    + done.
    + intros ->. unfold len in H1. simpl in H1. lia.
Qed.

Lemma Back_after_completed_witness :
  exists s',
    httpRequestComplete (L := fixture.lib) (httpRequest (L := fixture.lib) 0)
      (tour.get tour.home) None None tour.recording = Done None s'
    /\ (Back (bow s')).1 = true
    /\ state (Back (bow s')).2 = tour.loaded
    /\ history (Back (bow s')).2 = jar.mkMemoryHistory [jar.mkState None None None] 2.
Proof.
  destruct (Back_after_completed (L := fixture.lib) (httpRequest (L := fixture.lib) 0)
              (tour.get tour.home) None None tour.recording)
    as (s' & Hrun & _ & H); [vm_compute; reflexivity | vm_compute; reflexivity |].
  destruct H as (H1 & H2 & H3 & _); [vm_compute; split; congruence|].
  exists s'. split; [exact Hrun|]. split; [exact H1|]. split; [exact H2|exact H3].
Defined.

(** ** A body that does not open, and the asynchronous request *)

Section Remaining.
Context {L : Lib}.

(** X15. When the response says gzip and the body has no gzip header,
    [httpRequest] returns the error of [gzip.NewReader] straight away:
    the request has gone out, and nothing else has happened to the
    session: no state installed, no history entry, the body and the
    counter of reloads as they were. *)
Theorem gzip_header_error_leaves_session (fuel : nat) (req : Request)
    (resp : Response) (raw : bytes) (e : Error) (s : Sys) :
  net s (sent s) req = (Some resp, None) ->
  isCloudflare503 resp = false ->
  Header_Get (resp_Header resp) "Content-Encoding" = "gzip" ->
  resp_Body resp = Some raw ->
  gzip_NewReader raw = Some e ->
  httpRequest (S fuel) req s = Done (Some e) (requested req s).
Proof.
  intros Hnet Hcf Henc Hraw Hgz.
  change (httpRequest (S fuel) req s)
    with (httpRequest_body (httpRequest fuel) req s).
  unfold httpRequest_body. run. rewrite Hnet. unfold handleResponse.
  rewrite Hcf. unfold readResponse. rewrite Hraw.
  unfold contentReader. rewrite Henc. simpl. by rewrite Hgz.
Qed.

Lemma httpAsyncRequest_steps rec now req name s a s' :
  httpAsyncRequest rec now req name s = Done a s' ->
  exists bb s2,
    a = None
    /\ postSend rec
         (mkSys
            (with_state
               (jar.NewHistoryState (Some req) (net s (sent s) req).1
                  (Some (mkDocument bb)))
               (with_history (jar.Push (state (bow s)) (history (bow s))).1
                  (with_astore
                     (jar.AsyncStore_Set now name (Some (mkDocument bb))
                        (astore (bow s)))
                     (bow s))))
            (net s) (sent s ++ [req]) (slept s)) = Done tt s2
    /\ s' = mkSys (with_reloadCounter 0 (bow s2)) (net s2) (sent s2) (slept s2).
Proof.
  unfold httpAsyncRequest. run.
  destruct (net s (sent s) req) as [resp err] eqn:Hnet. simpl.
  destruct resp as [r|]; simpl.
  - destruct (resp_Body r) as [raw|]; [|done]. simpl.
    destruct (decide (resp_StatusCode r ≠ 403)); simpl.
    + destruct (postSend rec _) as [[] s2| |] eqn:Hpost; [|done|done].
      intros [= <- <-]. eexists _, s2. split; [done|]. split; [exact Hpost|done].
    + destruct (postSend rec _) as [[] s2| |] eqn:Hpost; [|done|done].
      intros [= <- <-]. eexists _, s2. split; [done|]. split; [exact Hpost|done].
  - intros [= <- <-]. eexists placeholder, _. split; [done|].
    split; [by apply postSend_no_response|done].
Qed.

(** X16. [httpAsyncRequest] never reports an error: when it returns it
    returns nil.  The request has gone out, the document is in the
    async store under the given name with the time of the call, the
    documents of other names are as they were, and the counter of
    reloads is 0. *)
Theorem httpAsyncRequest_returns_nil (fuel : nat) (now : jar.Time)
    (req : Request) (name : string) (s s' : Sys) (a : option Error) :
  httpAsyncRequest (httpRequest fuel) now req name s = Done a s' ->
  a = None
  /\ (exists dom, jar.AsyncStore_Get name (astore (bow s'))
                  = jar.mkAsyncDom now (Some dom))
  /\ (forall other, other <> name ->
        jar.AsyncStore_Get other (astore (bow s'))
        = jar.AsyncStore_Get other (astore (bow s)))
  /\ (sent s ++ [req]) `prefix_of` sent s'
  /\ reloadCounter (bow s') = 0.
Proof.
  intros Hrun.
  destruct (httpAsyncRequest_steps _ _ _ _ _ _ _ Hrun) as (bb & s2 & -> & Hpost & ->).
  pose proof (httpRequest_keeps fuel) as Hrec.
  destruct (keeps_postSend _ Hrec _ _ _ Hpost)
    as [[Hast _ _ _ _ _ _ _ _ _] _ Hsent _].
  simpl in *. split; [done|]. rewrite Hast.
  unfold jar.AsyncStore_Get, jar.AsyncStore_Set. simpl. repeat split.
  - exists (mkDocument bb). by rewrite lookup_insert_eq.
  - intros other Hne. by rewrite lookup_insert_ne.
  - done.
Qed.

(** X17. A round trip that brings no response (refused, timed out)
    makes [httpAsyncRequest] store the empty page under the name and
    return nil; the state it leaves has the request and no response,
    and the body of the session is not touched. *)
Theorem httpAsyncRequest_without_response (rec : Request -> M (option Error))
    (now : jar.Time) (req : Request) (name : string)
    (err : option UrlError) (s : Sys) :
  net s (sent s) req = (None, err) ->
  exists s',
    httpAsyncRequest rec now req name s = Done None s'
    /\ jar.AsyncStore_Get name (astore (bow s'))
       = jar.mkAsyncDom now (Some (mkDocument placeholder))
    /\ state (bow s')
       = jar.NewHistoryState (Some req) None (Some (mkDocument placeholder))
    /\ StatusCode (bow s') = 503
    /\ body (bow s') = body (bow s)
    /\ sent s' = sent s ++ [req]
    /\ slept s' = slept s.
Proof.
  intros Hnet. unfold httpAsyncRequest. run. rewrite Hnet. simpl.
  eexists. split; [reflexivity|]. simpl.
  unfold jar.AsyncStore_Get. simpl. rewrite lookup_insert_eq. done.
Qed.

End Remaining.

Lemma gzip_header_error_leaves_session_witness :
  httpRequest (L := fixture.lib) 1 (tour.get tour.home) tour.visiting
  = Done (Some (ErrLibrary "gzip: invalid header"))
      (requested (tour.get tour.home) tour.visiting).
Proof.
  apply (gzip_header_error_leaves_session (L := fixture.lib) 0 (tour.get tour.home)
           tour.mislabelled (bytes_of "<html>plain</html>"));
    vm_compute; reflexivity.
Defined.

Lemma httpAsyncRequest_returns_nil_witness :
  let run := httpAsyncRequest (L := fixture.lib) (httpRequest (L := fixture.lib) 1) 7
               (tour.get tour.home) "side" tour.visiting in
  let s' := default tour.visiting (final run) in
  run = Done None s'
  /\ (exists dom, jar.AsyncStore_Get "side" (astore (bow s')) = jar.mkAsyncDom 7 (Some dom))
  /\ reloadCounter (bow s') = 0.
Proof.
  intros run s'.
  assert (Hrun : run = Done None s') by (vm_compute; reflexivity).
  split; [exact Hrun|].
  destruct (httpAsyncRequest_returns_nil (L := fixture.lib) 1 7 (tour.get tour.home)
              "side" tour.visiting s' None Hrun) as (_ & H2 & _ & _ & H5).
  split; [exact H2|exact H5].
Defined.

Lemma httpAsyncRequest_without_response_witness :
  exists s',
    httpAsyncRequest (L := fixture.lib) (httpRequest (L := fixture.lib) 0) 7
      (tour.get tour.home) "side" tour.offline = Done None s'
    /\ jar.AsyncStore_Get "side" (astore (bow s'))
       = jar.mkAsyncDom 7 (Some (mkDocument placeholder))
    /\ StatusCode (bow s') = 503.
Proof.
  destruct (httpAsyncRequest_without_response (L := fixture.lib)
              (httpRequest (L := fixture.lib) 0) 7 (tour.get tour.home) "side"
              (Some tour.refused) tour.offline)
    as (s' & H1 & H2 & _ & H4 & _); [vm_compute; reflexivity|].
  exists s'. split; [exact H1|]. split; [exact H2|exact H4].
Defined.

Section Failures.
Context {L : Lib}.

(** X18. A navigation whose round trip fails without a response still
    moves the browser: [Url] answers with the URL that was asked for,
    [StatusCode] with 503, [ResponseHeaders] with no header, and the
    body is the empty page.  This holds for a timeout, for which the
    call may return nil, and for an error ending in "Service
    Unavailable", for which a response is made up. *)
Theorem failed_navigation_moves_Url (fuel : nat) (req : Request) (s : Sys)
    (e : UrlError) :
  net s (sent s) req = (None, Some e) ->
  Find_Length (mkDocument placeholder) "meta[http-equiv='refresh']" <= 0 ->
  exists err s',
    httpRequest (S fuel) req s = Done err s'
    /\ (ue_Timeout e = false -> err = Some (ErrClient e))
    /\ Url (bow s') = Some (Some (req_URL req))
    /\ StatusCode (bow s') = 503
    /\ ResponseHeaders (bow s') = ∅
    /\ body (bow s') = placeholder
    /\ sent s' = sent s ++ [req].
Proof.
  intros Hnet Hlen.
  change (httpRequest (S fuel) req s)
    with (httpRequest_body (httpRequest fuel) req s).
  unfold httpRequest_body. run. rewrite Hnet.
  destruct (ue_Timeout e) eqn:Ht.
  - unfold handleResponse.
    rewrite (httpRequestComplete_quiet _ req None _ (bodied placeholder (requested req s)))
      by (by apply postSend_no_response).
    eexists _, _. split; [reflexivity|]. by repeat split.
  - destruct (strings.HasSuffix _ _) eqn:Hs.
    + rewrite (httpRequestComplete_quiet _ req (Some (unavailable req)) _
                 (bodied placeholder (requested req s)))
        by (by apply (postSend_no_refresh _ _ (mkDocument placeholder))).
      eexists _, _. split; [reflexivity|]. by repeat split.
    + rewrite (httpRequestComplete_quiet _ req None _ (bodied placeholder (requested req s)))
        by (by apply postSend_no_response).
      eexists _, _. split; [reflexivity|]. by repeat split.
Qed.

(** X19. [OpenAsync] reports an error only for a URL that does not parse
    or cannot be made into a request, and then nothing has been sent
    and the session is as before.  In every other case it returns nil
    with a document stored under the name, whatever the round trip
    did. *)
Theorem OpenAsync_reports_only_bad_urls (fuel : nat) (now : jar.Time)
    (u name : string) (s s' : Sys) (a : option Error) :
  OpenAsync (httpRequest fuel) now u name s = Done a s' ->
  match a with
  | Some e =>
      s' = s
      /\ (url_Parse u = inr e
          \/ exists ur, url_Parse u = inl ur
                        /\ http_NewRequest "GET" (URL_String ur) None = inr e)
  | None =>
      exists dom, jar.AsyncStore_Get name (astore (bow s'))
                  = jar.mkAsyncDom now (Some dom)
  end.
Proof.
  unfold OpenAsync. destruct (url_Parse u) as [ur|e] eqn:Hu.
  - unfold httpAsyncGET, buildRequest.
    destruct (http_NewRequest "GET" (URL_String ur) None) as [req0|e] eqn:Hreq.
    + unfold mbind at 1, M_bind at 1. simpl. intros Hrun.
      destruct (httpAsyncRequest_steps _ _ _ _ _ _ _ Hrun)
        as (bb & s2 & -> & Hpost & ->).
      destruct (keeps_postSend _ (httpRequest_keeps fuel) _ _ _ Hpost)
        as [[Hast _ _ _ _ _ _ _ _ _] _ _ _].
      simpl in *. exists (mkDocument bb). rewrite Hast.
      unfold jar.AsyncStore_Get, jar.AsyncStore_Set. simpl.
      by rewrite lookup_insert_eq.
    + run. intros [= <- <-]. split; [done|]. right. by exists ur.
  - intros [= <- <-]. split; [done|]. by left.
Qed.

End Failures.

Lemma failed_navigation_moves_Url_witness :
  exists err s',
    httpRequest (L := fixture.lib) 1 (tour.get tour.home) tour.offline = Done err s'
    /\ Url (bow s') = Some (Some tour.home)
    /\ StatusCode (bow s') = 503.
Proof.
  destruct (failed_navigation_moves_Url (L := fixture.lib) 0 (tour.get tour.home)
              tour.offline tour.refused)
    as (err & s' & H1 & _ & H3 & H4 & _);
    [vm_compute; reflexivity | vm_compute; congruence |].
  exists err, s'. split; [exact H1|]. split; [exact H3|exact H4].
Defined.

Lemma OpenAsync_reports_only_bad_urls_witness :
  let run := OpenAsync (L := fixture.lib) (httpRequest (L := fixture.lib) 1) 7
               "http://example.com/" "side" tour.offline in
  let s' := default tour.offline (final run) in
  run = Done None s'
  /\ exists dom, jar.AsyncStore_Get "side" (astore (bow s'))
                 = jar.mkAsyncDom 7 (Some dom).
Proof.
  intros run s'.
  assert (Hrun : run = Done None s') by (vm_compute; reflexivity).
  split; [exact Hrun|].
  exact (OpenAsync_reports_only_bad_urls (L := fixture.lib) 1 7
           "http://example.com/" "side" tour.offline s' None Hrun).
Defined.

(** ** What a solved challenge leaves behind *)

Section Solved.
Context {L : Lib}.
Variable fuel : nat.

Lemma upgrade_after_old rurl b :
  GetRequestHeader "Upgrade-Insecure-Requests" (answer_headers_old rurl b) = "1".
Proof.
  unfold answer_headers_old, GetRequestHeader, AddRequestHeader. simpl.
  by rewrite Header_Get_Set.
Qed.

Lemma solveCF_old_upgrade dom js host rurl s s' :
  solveCF_old (httpRequest fuel) dom js host rurl s = Done true s' ->
  GetRequestHeader "Upgrade-Insecure-Requests" (bow s') = "1".
Proof.
  unfold solveCF_old.
  destruct (rewrite_old js host); [|done].
  destruct (otto_Eval _); [|done].
  destruct (Value_ToInteger _); [|done].
  destruct (answer_url_old _ _ _) as [ur|]; [|done].
  run. destruct (Open _ _ _) as [a s1| |] eqn:HOpen; [|done|done].
  intros [= <-].
  destruct (keeps_Open _ (httpRequest_keeps fuel) _ _ _ _ HOpen)
    as [[_ _ _ _ _ _ _ _ _ Hu] _ _ _].
  apply Hu. apply upgrade_after_old.
Qed.

Lemma solveCF_new_upgrade dom js host rurl s s' :
  solveCF_new (httpRequest fuel) dom js host rurl s = Done true s' ->
  GetRequestHeader "Upgrade-Insecure-Requests" (bow s') = "1".
Proof.
  unfold solveCF_new.
  destruct (FindStringSubmatch _ _) as [|x0 x]; [done|].
  destruct (_ !! 1%nat) as [key|]; [|done].
  destruct (FindAllStringSubmatch _ _) as [|m ms]; [done|].
  destruct (m !! 1%nat) as [js'|]; [|done].
  destruct (otto_Eval _); [|done].
  destruct (Value_ToInteger _); [|done].
  run. destruct (PostForm _ _ _ _ _) as [a s1| |] eqn:HPost; [|done|done].
  destruct (decide _); [done|]. intros [= <-].
  destruct (keeps_PostForm _ (httpRequest_keeps fuel) _ _ _ _ _ _ HPost)
    as [[_ _ _ _ _ _ _ _ _ Hu] _ _ _].
  apply Hu. unfold GetRequestHeader, AddRequestHeader. simpl.
  by rewrite !Header_Get_Set.
Qed.

(** X20. When [solveCF] answers true, the session sends
    Upgrade-Insecure-Requests: 1 with its requests from then on: the
    header the solver set for its answer stays among the request
    headers of the browser, and no later navigation takes it away. *)
Theorem solved_challenge_leaves_header (resp : Response) (rurl : URL)
    (s s' : Sys) :
  solveCF (httpRequest fuel) resp rurl s = Done true s' ->
  GetRequestHeader "Upgrade-Insecure-Requests" (bow s') = "1"
  /\ forall fuel' req a s'',
       httpRequest fuel' req s' = Done a s'' ->
       GetRequestHeader "Upgrade-Insecure-Requests" (bow s'') = "1".
Proof.
  intros Hrun.
  assert (H1 : GetRequestHeader "Upgrade-Insecure-Requests" (bow s') = "1").
  { revert Hrun. unfold solveCF.
    destruct (strings.Contains _ _); [done|]. run. unfold solveCF_page.
    destruct (resp_Body resp) as [raw|]; [|done].
    destruct (if String.eqb _ "gzip" then _ else _) as [reader|]; [|done].
    destruct (dec_err _); [done|].
    destruct (NewDocumentFromReader _) as [dom|]; [|done].
    destruct (strings.Contains _ "e = function(s)").
    - apply solveCF_new_upgrade.
    - apply solveCF_old_upgrade. }
  split; [done|]. intros fuel' req a s'' Hnav.
  destruct (httpRequest_keeps fuel' req s' a s'' Hnav)
    as [[_ _ _ _ _ _ _ _ _ Hu] _ _ _].
  auto.
Qed.

End Solved.

Lemma solved_challenge_leaves_header_witness :
  let s := attempted (requested (scenario.get scenario.page)
             (scenario.session (NewBrowser "surf") scenario.challenged_once)) in
  let run := solveCF (L := fixture.lib) (httpRequest (L := fixture.lib) 1)
               (scenario.challenge fixture.old_page) scenario.page
               (requested (scenario.get scenario.page)
                  (scenario.session (NewBrowser "surf") scenario.challenged_once)) in
  let s' := default s (final run) in
  run = Done true s'
  /\ GetRequestHeader "Upgrade-Insecure-Requests" (bow s') = "1".
Proof.
  intros s run s'.
  assert (Hrun : run = Done true s') by (vm_compute; reflexivity).
  split; [exact Hrun|].
  destruct (solved_challenge_leaves_header (L := fixture.lib) 1
              (scenario.challenge fixture.old_page) scenario.page _ s' Hrun)
    as [H _].
  exact H.
Defined.

(** ** The meta refresh *)

Section Refresh.
Context {L : Lib}.
Variables (req : Request) (resp : Response) (raw : bytes).
Variables (content : string) (dur : Z).

Let ct := Header_Get (resp_Header resp) "Content-Type".
Let page := charset_transcode ct raw.
Let dom := mkDocument page.

Hypothesis Hcf : isCloudflare503 resp = false.
Hypothesis Henc : Header_Get (resp_Header resp) "Content-Encoding" = EmptyString.
Hypothesis Hraw : resp_Body resp = Some raw.
Hypothesis Hne : raw <> [].
Hypothesis Hst : resp_StatusCode resp <> 403.
Hypothesis Hgbk : ct <> "text/html; charset=GBK".
Hypothesis Hhtml : isContentTypeHtml (Some resp) = true.
Hypothesis Hlen : Find_Length dom "meta[http-equiv='refresh']" > 0.
Hypothesis Hattr : Find_Attr dom "meta[http-equiv='refresh']" "content" = Some content.
Hypothesis Hdur : time_ParseDuration (content +:+ "s") = inl dur.

Lemma readResponse_page rec s :
  pluggable_converters (bow s) = ∅ ->
  pluggableContentTypeChecker (bow s) = [] ->
  readResponse rec req resp s
  = httpRequestComplete rec req (Some resp) None (bodied page s).
Proof.
  intros Hconv Hchk. unfold readResponse. rewrite Hraw.
  unfold contentReader. rewrite Henc. simpl. run.
  destruct (decide (resp_StatusCode resp ≠ 403)); [|done].
  fold ct. destruct (String.eqb_spec ct "text/html; charset=GBK"); [done|].
  assert (contentFix (bow s) ct = false) as ->.
  { unfold contentFix. rewrite Hchk. by destruct (mime_match ct). }
  simpl. unfold charset_NewReader. simpl.
  assert (contentConversion ct (URL_String (req_URL req)) (with_body page (bow s))
          = with_body page (bow s)) as Hcc.
  { unfold contentConversion. destruct (mime_match ct); [|done]. simpl.
    by rewrite Hconv, lookup_empty. }
  destruct (decide (1024 <= len raw)); simpl.
  - fold page. by rewrite Hcc.
  - destruct raw; [done|]. simpl. fold page. by rewrite Hcc.
Qed.

Lemma postSend_refresh rec s :
  jar.st_Response (state (bow s)) = Some resp ->
  jar.st_Dom (state (bow s)) = Some dom ->
  attr (bow s) MetaRefreshHandling = true ->
  postSend rec s
  = if decide (reloadCounter (bow s) < maxReloads (bow s)) then
      (time_Sleep dur;;
       modify_bow (fun b => with_reloadCounter (reloadCounter b + 1) b);;
       _ ← Reload rec; mret tt) s
    else Done tt s.
Proof.
  intros Hresp Hdom Hmeta. unfold postSend. run.
  rewrite Hresp, Hhtml, Hmeta, Hdom. simpl.
  rewrite decide_True by done. rewrite Hattr, Hdur.
  by destruct (decide _).
Qed.

(** X21. A page that asks to be refreshed is reloaded until the counter
    of reloads reaches the maximum, and then the navigation returns:
    with [k] reloads left, [k + 1] requests go out, all the same, [k]
    sleeps of the page's delay are taken, and the counter ends at 0.
    With the maximum at 0, as in a new browser, no refresh is
    followed. *)
Theorem meta_refresh_reloads_to_the_maximum (k fuel : nat) (s : Sys) :
  refreshing resp s ->
  reloadCounter (bow s) + Z.of_nat k = maxReloads (bow s) ->
  exists s',
    httpRequest (S k + fuel) req s = Done None s'
    /\ sent s' = sent s ++ replicate (S k) req
    /\ slept s' = slept s ++ replicate k dur
    /\ reloadCounter (bow s') = 0
    /\ state (bow s') = jar.NewHistoryState (Some req) (Some resp) (Some dom)
    /\ body (bow s') = page
    /\ refreshing resp s' /\ maxReloads (bow s') = maxReloads (bow s).
Proof.
  revert s. induction k as [|k IH]; intros s (Hnet & Hconv & Hchk & Hmeta) Hk.
  - change (httpRequest (1 + fuel) req s)
      with (httpRequest_body (httpRequest fuel) req s).
    unfold httpRequest_body. run. rewrite Hnet. unfold handleResponse.
    rewrite Hcf. rewrite readResponse_page by done.
    unfold httpRequestComplete. run.
    rewrite postSend_refresh by done. simpl.
    rewrite decide_False by lia.
    eexists. split; [reflexivity|]. simpl. rewrite app_nil_r.
    repeat split; done.
  - change (httpRequest (S (S k) + fuel) req s)
      with (httpRequest_body (httpRequest (S k + fuel)) req s).
    unfold httpRequest_body. run. rewrite Hnet. unfold handleResponse.
    rewrite Hcf. rewrite readResponse_page by done.
    unfold httpRequestComplete. run.
    rewrite postSend_refresh by done. simpl.
    rewrite decide_True by lia. unfold Reload. run.
    match goal with |- context [httpRequest_body _ req ?s1] =>
      destruct (IH s1) as (s' & Hrun & Hsent & Hslept & Hrc & Hstate & Hbody & Href & Hmax)
    end.
    { by repeat split. }
    { simpl. lia. }
    change (httpRequest (S k + fuel) req) with
      (httpRequest_body (httpRequest (k + fuel)) req) in Hrun.
    rewrite Hrun. eexists. split; [reflexivity|]. simpl.
    simpl in Hsent, Hslept, Hmax. rewrite Hsent, Hslept.
    destruct Href as (? & ? & ? & ?).
    repeat split; try done.
    + by rewrite <- app_assoc.
    + by rewrite <- app_assoc.
Qed.

End Refresh.

Lemma meta_refresh_reloads_to_the_maximum_witness :
  exists s',
    httpRequest (L := refresh.lib) 3 (tour.get tour.home) tour.patient = Done None s'
    /\ sent s' = replicate 3 (tour.get tour.home)
    /\ slept s' = [2 * Second; 2 * Second]
    /\ reloadCounter (bow s') = 0.
Proof.
  destruct (meta_refresh_reloads_to_the_maximum (L := refresh.lib)
              (tour.get tour.home) tour.waiting refresh.page "2" (2 * Second))
    with (k := 2%nat) (fuel := 0%nat) (s := tour.patient)
    as (s' & H1 & H2 & H3 & H4 & _).
  all: try (vm_compute; reflexivity).
  - vm_compute. congruence.
  - vm_compute. congruence.
  - vm_compute. congruence.
  - repeat split; vm_compute; reflexivity.
  - exists s'. split; [exact H1|]. split; [exact H2|]. split; [exact H3|exact H4].
Defined.

(** ** Forms *)

Lemma existsb_eqb_false {A} (p : A -> bool) (l : list A) (g : A -> A) :
  existsb p l = false -> map (fun x => if p x then g x else x) l = l.
Proof.
  induction l as [|x l IH]; [done|]. simpl.
  intros [Hx Hl]%orb_false_iff. rewrite Hx. by rewrite IH.
Qed.

(** X22. [Input] on a name that no field has, and no checkbox has with
    the given value, answers with the element-not-found error and
    leaves the form as it is; it answers nil in every other case. *)
Theorem Input_not_found (name value : string) (f : form.Form) :
  let found :=
    (exists fl, fl ∈ form.fields f /\ form.field_name fl = name)
    \/ (exists c, c ∈ form.checkboxes f
                  /\ form.box_name c = name /\ form.box_value c = value) in
  (found -> (form.Input name value f).2 = None)
  /\ (~ found -> form.Input name value f = (f, Some (form.ErrElementNotFound name))).
Proof.
  intros found. subst found. unfold form.Input. simpl.
  destruct (existsb (fun fl => String.eqb (form.field_name fl) name) (form.fields f))
    eqn:E1; simpl.
  { split; [done|]. intros Hn. exfalso. apply Hn. left.
    apply existsb_exists in E1 as (fl & Hin & Heq).
    exists fl. split; [by apply list_elem_of_In|by apply String.eqb_eq]. }
  destruct (existsb _ (form.checkboxes f)) eqn:E2; simpl.
  { split; [done|]. intros Hn. exfalso. apply Hn. right.
    apply existsb_exists in E2 as (c & Hin & Heq).
    apply andb_true_iff in Heq as [H1 H2].
    exists c. split; [by apply list_elem_of_In|].
    split; by apply String.eqb_eq. }
  split.
  - intros [(fl & Hin & Heq)|(c & Hin & H1 & H2)]; exfalso.
    + assert (existsb (fun fl => String.eqb (form.field_name fl) name) (form.fields f) = true);
        [|congruence].
      apply existsb_exists. exists fl. split; [by apply list_elem_of_In|by apply String.eqb_eq].
    + assert (existsb (fun c => String.eqb (form.box_name c) name
                                && String.eqb (form.box_value c) value)
                (form.checkboxes f) = true); [|congruence].
      apply existsb_exists. exists c. split; [by apply list_elem_of_In|].
      apply andb_true_iff. split; by apply String.eqb_eq.
  - intros _. rewrite (existsb_eqb_false _ _ _ E1), (existsb_eqb_false _ _ _ E2).
    by destruct f.
Qed.

Lemma Input_not_found_witness :
  let f := form.mkForm (fun _ => None) "GET" "http://example.com/"
             [form.mkField "q" EmptyString] [form.mkCheckbox "lang" "en" false] [] in
  form.Input "lang" "fr" f = (f, Some (form.ErrElementNotFound "lang"))
  /\ (form.Input "lang" "en" f).2 = None.
Proof.
  intros f.
  destruct (Input_not_found "lang" "fr" f) as [_ H2].
  destruct (Input_not_found "lang" "en" f) as [H1 _].
  split.
  - apply H2. intros [(fl & Hin & Heq)|(c & Hin & H3 & H4)].
    + apply list_elem_of_singleton in Hin as ->. discriminate.
    + apply list_elem_of_singleton in Hin as ->. discriminate.
  - apply H1. right. exists (form.mkCheckbox "lang" "en" false).
    split; [apply list_elem_of_singleton; reflexivity|split; reflexivity].
Defined.

Lemma lookup_map_if {A} (p : A -> bool) (g : A -> A) (l : list A) (i : nat) (x : A) :
  l !! i = Some x ->
  map (fun y => if p y then g y else y) l !! i = Some (if p x then g x else x).
Proof.
  revert i. induction l as [|y l IH]; intros [|i]; simpl; try done.
  - by intros [= ->].
  - apply IH.
Qed.

(** X23. [Input] sets the value of every field of the name and leaves
    the other fields as they are; it flips every checkbox of the name
    and value and leaves the other checkboxes as they are; the
    buttons and the form element are not touched.  Given twice, it
    leaves the fields as after the first time and the checkboxes as
    they were before. *)
Theorem Input_sets_and_flips (name value : string) (f : form.Form) :
  let f1 := (form.Input name value f).1 in
  let f2 := (form.Input name value f1).1 in
  length (form.fields f1) = length (form.fields f)
  /\ length (form.checkboxes f1) = length (form.checkboxes f)
  /\ (forall i fl, form.fields f !! i = Some fl ->
        form.fields f1 !! i
        = Some (if decide (form.field_name fl = name)
                then form.mkField (form.field_name fl) value else fl))
  /\ (forall i c, form.checkboxes f !! i = Some c ->
        form.checkboxes f1 !! i
        = Some (if decide (form.box_name c = name /\ form.box_value c = value)
                then form.mkCheckbox (form.box_name c) (form.box_value c)
                       (negb (form.checked c))
                else c))
  /\ form.fields f2 = form.fields f1
  /\ form.checkboxes f2 = form.checkboxes f
  /\ form.buttons f1 = form.buttons f
  /\ form.selection f1 = form.selection f
  /\ form.method f1 = form.method f
  /\ form.action f1 = form.action f.
Proof.
  intros f1 f2. subst f1 f2. unfold form.Input. simpl.
  split; [apply length_map|]. split; [apply length_map|].
  split; [|split; [|split; [|split; [|done]]]].
  - intros i fl Hi.
    rewrite (lookup_map_if
               (fun fl => String.eqb (form.field_name fl) name)
               (fun fl => form.mkField (form.field_name fl) value) _ _ _ Hi).
    destruct (String.eqb_spec (form.field_name fl) name) as [E|E].
    + by rewrite decide_True.
    + by rewrite decide_False.
  - intros i c Hi.
    rewrite (lookup_map_if
               (fun c => String.eqb (form.box_name c) name
                         && String.eqb (form.box_value c) value)
               (fun c => form.mkCheckbox (form.box_name c) (form.box_value c)
                           (negb (form.checked c))) _ _ _ Hi).
    destruct (String.eqb_spec (form.box_name c) name) as [E1|E1];
      destruct (String.eqb_spec (form.box_value c) value) as [E2|E2]; simpl.
    + by rewrite decide_True.
    + rewrite decide_False; [done|]. by intros [_ ?].
    + rewrite decide_False; [done|]. by intros [? _].
    + rewrite decide_False; [done|]. by intros [? _].
  - induction (form.fields f) as [|fl l IH]; [done|]. simpl.
    rewrite IH. f_equal.
    destruct (String.eqb_spec (form.field_name fl) name) as [E|E]; simpl.
    + by rewrite E, String.eqb_refl.
    + by destruct (String.eqb_spec (form.field_name fl) name).
  - induction (form.checkboxes f) as [|c l IH]; [done|]. simpl.
    rewrite IH. f_equal.
    destruct (String.eqb (form.box_name c) name && String.eqb (form.box_value c) value)
      eqn:E; simpl; rewrite E; [|done].
    rewrite negb_involutive. by destruct c.
Qed.

Lemma foldl_adds {A} (step : Values -> A -> Values) (P : A -> Prop)
    `{!forall x, Decision (P x)} (val : A -> string) (k : string) :
  (forall v x, step v x !! k
               = if decide (P x) then Some (default [] (v !! k) ++ [val x])
                 else v !! k) ->
  forall l v,
    foldl step v l !! k
    = match map val (filter P l) with
      | [] => v !! k
      | ex => Some (default [] (v !! k) ++ ex)
      end.
Proof.
  intros Hstep l. induction l as [|x l IH]; intros v; [done|].
  simpl. rewrite IH, Hstep. destruct (decide (P x)) as [Hx|Hx].
  - rewrite filter_cons_True by done. simpl.
    destruct (map val (filter P l)); simpl; [done|].
    by rewrite <- app_assoc.
  - by rewrite filter_cons_False by done.
Qed.

Lemma Values_Add_lookup key value v k :
  Values_Add key value v !! k
  = if decide (key = k) then Some (default [] (v !! k) ++ [value]) else v !! k.
Proof.
  unfold Values_Add. destruct (decide (key = k)) as [->|Hne].
  - by rewrite lookup_insert_eq.
  - by rewrite lookup_insert_ne.
Qed.

(** X24. The values a form submits under a name are the values of its
    fields of that name, then the values of its checked checkboxes of
    that name, then the value of the clicked button if that is its
    name and the name is not empty; a name with none of these is not
    submitted. *)
Theorem values_by_name (f : form.Form) (buttonName buttonValue k : string) :
  form.values f buttonName buttonValue !! k
  = match
      map form.field_value (filter (fun fl => form.field_name fl = k) (form.fields f))
      ++ map form.box_value
           (filter (fun c => form.checked c = true /\ form.box_name c = k)
              (form.checkboxes f))
      ++ (if decide (buttonName <> EmptyString /\ buttonName = k)
          then [buttonValue] else [])
    with
    | [] => None
    | l => Some l
    end.
Proof.
  unfold form.values.
  set (v1 := foldl _ ∅ (form.fields f)).
  set (v2 := foldl _ v1 (form.checkboxes f)).
  assert (H1 : v1 !! k
               = match map form.field_value
                         (filter (fun fl => form.field_name fl = k) (form.fields f)) with
                 | [] => None
                 | l => Some l
                 end).
  { subst v1. rewrite (foldl_adds _ (fun fl => form.field_name fl = k) form.field_value k).
    - by rewrite lookup_empty.
    - intros v x. apply Values_Add_lookup. }
  assert (H2 : v2 !! k
               = match map form.box_value
                         (filter (fun c => form.checked c = true /\ form.box_name c = k)
                            (form.checkboxes f)) with
                 | [] => v1 !! k
                 | ex => Some (default [] (v1 !! k) ++ ex)
                 end).
  { subst v2. apply foldl_adds. intros v x. destruct (form.checked x) eqn:E.
    - rewrite Values_Add_lookup. destruct (decide (form.box_name x = k)).
      + by rewrite decide_True by done.
      + rewrite decide_False; [done|]. by intros [_ ?].
    - rewrite decide_False; [done|]. by intros [? _]. }
  destruct (String.eqb_spec buttonName EmptyString) as [E|E]; simpl.
  - rewrite decide_False by (by intros [? _]). rewrite app_nil_r, H2, H1.
    destruct (map form.field_value _), (map form.box_value _); simpl;
      by rewrite ?app_nil_r.
  - rewrite Values_Add_lookup. destruct (decide (buttonName = k)) as [Hk|Hk].
    + rewrite decide_True by done. rewrite H2, H1.
      destruct (map form.field_value _), (map form.box_value _); simpl;
        by rewrite <- ?app_assoc.
    + rewrite decide_False by (by intros [_ ?]). rewrite app_nil_r, H2, H1.
      destruct (map form.field_value _), (map form.box_value _); simpl;
        by rewrite ?app_nil_r.
Qed.

Section Forms.
Context {L : Lib}.
Variable ToUpper : string -> string.
Variable bow_Url : option URL.
Variable ResolveUrl : URL -> option URL.

Local Abbreviation send := (form.send ToUpper bow_Url ResolveUrl).
Local Abbreviation Click := (form.Click ToUpper bow_Url ResolveUrl).
Local Abbreviation Submit := (form.Submit ToUpper bow_Url ResolveUrl).

(** X25. [Submit] clicks the first button of the form, and submits
    without a button when the form has none.  [Click] submits with the
    first button of the given name and its value; naming a button the
    form does not have is an error, and nothing is submitted. *)
Theorem Submit_clicks_first_button (f : form.Form) :
  Submit f = match form.buttons f with
             | b :: _ => send f (form.button_name b) (form.button_value b)
             | [] => send f EmptyString EmptyString
             end
  /\ (forall button before b after,
        form.buttons f = before ++ b :: after ->
        form.button_name b = button ->
        (forall b', b' ∈ before -> form.button_name b' <> button) ->
        Click button f = send f button (form.button_value b))
  /\ (forall button,
        (forall b, b ∈ form.buttons f -> form.button_name b <> button) ->
        Click button f = form.Fails (form.ErrInvalidFormValue button)).
Proof.
  split; [|split].
  - unfold form.Submit, form.Click. destruct (form.buttons f) as [|b l]; [done|].
    simpl. by rewrite String.eqb_refl.
  - intros button before b after Hb Hname Hbefore. unfold form.Click. rewrite Hb.
    clear Hb. induction before as [|b0 before IH]; simpl.
    + rewrite Hname, String.eqb_refl. by rewrite Hname.
    + destruct (String.eqb_spec (form.button_name b0) button) as [E|E].
      * exfalso. apply (Hbefore b0); [left|done].
      * apply IH. intros b' Hin. apply Hbefore. by right.
  - intros button Hnone. unfold form.Click.
    induction (form.buttons f) as [|b l IH]; [done|]. simpl.
    destruct (String.eqb_spec (form.button_name b) button) as [E|E].
    + exfalso. apply (Hnone b); [left|done].
    + apply IH. intros b' Hin. apply Hnone. by right.
Qed.

End Forms.
